(** * Portfolionew003 API: a shallow embedding of [backend/main.py]

    The service is a FastAPI application whose handlers are thin wrappers
    around three external collaborators: the process environment
    ([os.getenv]), a PostgreSQL server reached through [asyncpg], and an
    S3 bucket reached through [boto3].  The handlers are embedded as
    computations in a state-and-exception monad over a [World] that holds
    what those collaborators hold; every outcome the outside can produce
    (a fault of a call, the random bytes, the server's clock, what the
    interpreter's [int] makes of a text) is a field of the world, so that a statement over all worlds is a statement over
    all behaviours of the outside.

    Left out: the CORS middleware, the table creation at import and the
    router mounted under [/v1], which come from modules the handlers of
    this file do not call. *)

From Stdlib Require Import ZArith Ascii String List Lia.
From stdpp Require Import gmap strings list sorting.

Set Warnings "-register-all".

Local Open Scope Z_scope.
Local Open Scope string_scope.

(** ** Python strings *)

Module PyStr.

(** [s.split(sep)] for a one-character separator: every occurrence of
    the separator cuts, and the result is never empty. *)
Fixpoint split (sep : ascii) (s : string) : list string :=
  match s with
  | EmptyString => [EmptyString]
  | String c s' =>
      if Ascii.eqb c sep then EmptyString :: split sep s'
      else match split sep s' with
           | h :: t => String c h :: t
           | [] => [String c EmptyString]
           end
  end.

(** [l[-1]]: the last element, [None] standing for [IndexError]. *)
Definition last_item {A} (l : list A) : option A := last l.

(** [c in s] for a character. *)
Fixpoint contains_char (c : ascii) (s : string) : bool :=
  match s with
  | EmptyString => false
  | String d s' => Ascii.eqb d c || contains_char c s'
  end.

(** [sub in s], as a proposition. *)
Definition contains (s sub : string) : Prop :=
  exists pre post, s = pre +:+ sub +:+ post.

(** [str(x)] inside an f-string for a value that may be [None]. *)
Definition fmt_opt (o : option string) : string :=
  match o with
  | Some s => s
  | None => "None"
  end.

End PyStr.

(** ** [uuid.uuid4()] and [str(UUID)] *)

Module Uuid.

Definition hex_digit (d : Z) : ascii :=
  nth (Z.to_nat d) (list_ascii_of_string "0123456789abcdef") "0"%char.

(** The [k] low hexadecimal digits of [n], most significant first:
    ['%032x' % n] for [k = 32] and [0 <= n < 2^128]. *)
Fixpoint hex_digits (k : nat) (n : Z) : list ascii :=
  match k with
  | O => []
  | S k' => hex_digits k' (n / 16) ++ [hex_digit (n mod 16)]
  end.

(** [UUID.__str__]:
    ['%s-%s-%s-%s-%s' % (hex[:8], hex[8:12], hex[12:16], hex[16:20], hex[20:])]. *)
Definition dashed (hex : list ascii) : list ascii :=
  take 8 hex ++ "-"%char ::
  take 4 (drop 8 hex) ++ "-"%char ::
  take 4 (drop 12 hex) ++ "-"%char ::
  take 4 (drop 16 hex) ++ "-"%char ::
  drop 20 hex.

Definition str (u : Z) : string :=
  string_of_list_ascii (dashed (hex_digits 32 u)).

(** [UUID(bytes=os.urandom(16), version=4)]: the 16 random bytes read as
    a big-endian integer, then the variant and version bits forced. *)
Definition of_random (r : Z) : Z :=
  let i := r mod 2 ^ 128 in
  let i := Z.lor (Z.ldiff i (Z.shiftl 0xc000 48)) (Z.shiftl 0x8000 48) in
  let i := Z.lor (Z.ldiff i (Z.shiftl 0xf000 64)) (Z.shiftl 4 76) in
  i.

End Uuid.

(** ** Python values, exceptions and HTTP responses *)

(** The values the handlers put into their response dictionaries, before
    FastAPI serialises them.  A dictionary keeps its insertion order. *)
Inductive value : Type :=
| VNone
| VStr (s : string)
| VInt (n : Z)
| VClock (ticks : Z)          (* the float read from the event loop's clock *)
| VDatetime (micros : Z)      (* a [datetime], as microseconds since the epoch *)
| VList (l : list value)
| VDict (d : list (string * value)).

Definition of_opt_str (o : option string) : value :=
  match o with Some s => VStr s | None => VNone end.

Definition of_opt_int (o : option Z) : value :=
  match o with Some n => VInt n | None => VNone end.

(** [d[k]] on an insertion-ordered dictionary. *)
Fixpoint dict_get (k : string) (d : list (string * value)) : option value :=
  match d with
  | [] => None
  | (k', v) :: d' => if String.eqb k' k then Some v else dict_get k d'
  end.

(** The exception classes the source distinguishes: [botocore]'s
    [ClientError], FastAPI's [HTTPException], and every other subclass
    of [Exception]. *)
Inductive exn : Type :=
| ClientError (msg : string)
| HTTPException (status_code : Z) (detail : string)
| OtherException (cls msg : string).

(** [str(e)], as an f-string prints it. *)
Definition exn_str (e : exn) : string :=
  match e with
  | ClientError msg => msg
  | HTTPException _ detail => detail
  | OtherException _ msg => msg
  end.

Inductive outcome (A : Type) : Type :=
| Returned (a : A)
| Raised (e : exn).
Arguments Returned {A} a.
Arguments Raised {A} e.

(** What a handler hands back to the framework: a plain dictionary, or
    an explicit [JSONResponse]. *)
Inductive ret : Type :=
| Dict (d : list (string * value))
| JSONResponse (content : value) (status_code : Z).

Record Response := { status : Z; body : value }.

(** FastAPI's part: a dictionary is sent with the route's default status
    200; an [HTTPException] becomes its status with a [detail] body; any
    other exception that leaves a handler is a bare 500. *)
Definition serve (o : outcome ret) : Response :=
  match o with
  | Returned (Dict d) => {| status := 200; body := VDict d |}
  | Returned (JSONResponse c s) => {| status := s; body := c |}
  | Raised (HTTPException s detail) =>
      {| status := s; body := VDict [("detail", VStr detail)] |}
  | Raised _ => {| status := 500; body := VStr "Internal Server Error" |}
  end.

(** ** The outside world *)

Record S3Object := { obj_body : list Byte.byte; obj_content_type : option string }.

Record S3Client := {
  aws_access_key_id : option string;
  aws_secret_access_key : option string;
  region_name : option string }.

Record PresignRequest := {
  pr_client : S3Client;
  pr_method : string;
  pr_bucket : option string;
  pr_key : string;
  pr_expires_in : Z }.

Inductive verify_mode := CERT_NONE | CERT_REQUIRED.

Record SSLContext := { check_hostname : bool; verify : verify_mode }.

Record ConnectArgs := {
  ca_user : option string;
  ca_password : option string;
  ca_database : option string;
  ca_host : option string;
  ca_port : Z;
  ca_ssl : SSLContext }.

(** Every call the handlers make to the SDK and to the database driver,
    in the order they are made. *)
Inductive call : Type :=
| CallUpload (bucket : option string) (key : string) (content_type : option string)
| CallList (bucket : option string) (continuation_token : option string)
| CallPresign (req : PresignRequest)
| CallConnect (args : ConnectArgs)
| CallFetchrow (conn : nat) (query : string)
| CallClose (conn : nat).

Record World := {
  environ : gmap string string;          (* [os.environ], after [load_dotenv()] *)
  entropy : list Z;                      (* the coming [os.urandom(16)] reads *)
  faults : list (option exn);            (* the fate of the coming remote calls *)
  buckets : gmap string (gmap string S3Object);
  page_size : nat;                       (* keys per listing page; 1000 on S3 *)
  signer : PresignRequest -> outcome string;
  db_open : list nat;                    (* connections the server holds open *)
  db_next : nat;
  db_now : Z;                            (* the server's [NOW()] *)
  loop_clock : Z;
  stdout : list string;
  calls : list call;
  int_of_str : string -> outcome Z }.     (* the interpreter's [int] on text *)

Definition set_environ (e : gmap string string) (w : World) : World :=
  {| environ := e; entropy := entropy w; faults := faults w;
     buckets := buckets w; page_size := page_size w; signer := signer w;
     db_open := db_open w; db_next := db_next w; db_now := db_now w;
     loop_clock := loop_clock w; stdout := stdout w; calls := calls w;
     int_of_str := int_of_str w |}.

Definition set_entropy (l : list Z) (w : World) : World :=
  {| environ := environ w; entropy := l; faults := faults w;
     buckets := buckets w; page_size := page_size w; signer := signer w;
     db_open := db_open w; db_next := db_next w; db_now := db_now w;
     loop_clock := loop_clock w; stdout := stdout w; calls := calls w;
     int_of_str := int_of_str w |}.

Definition set_faults (l : list (option exn)) (w : World) : World :=
  {| environ := environ w; entropy := entropy w; faults := l;
     buckets := buckets w; page_size := page_size w; signer := signer w;
     db_open := db_open w; db_next := db_next w; db_now := db_now w;
     loop_clock := loop_clock w; stdout := stdout w; calls := calls w;
     int_of_str := int_of_str w |}.

Definition set_buckets (b : gmap string (gmap string S3Object)) (w : World) : World :=
  {| environ := environ w; entropy := entropy w; faults := faults w;
     buckets := b; page_size := page_size w; signer := signer w;
     db_open := db_open w; db_next := db_next w; db_now := db_now w;
     loop_clock := loop_clock w; stdout := stdout w; calls := calls w;
     int_of_str := int_of_str w |}.

Definition set_db (open : list nat) (next : nat) (w : World) : World :=
  {| environ := environ w; entropy := entropy w; faults := faults w;
     buckets := buckets w; page_size := page_size w; signer := signer w;
     db_open := open; db_next := next; db_now := db_now w;
     loop_clock := loop_clock w; stdout := stdout w; calls := calls w;
     int_of_str := int_of_str w |}.

Definition set_stdout (l : list string) (w : World) : World :=
  {| environ := environ w; entropy := entropy w; faults := faults w;
     buckets := buckets w; page_size := page_size w; signer := signer w;
     db_open := db_open w; db_next := db_next w; db_now := db_now w;
     loop_clock := loop_clock w; stdout := l; calls := calls w;
     int_of_str := int_of_str w |}.

Definition set_calls (l : list call) (w : World) : World :=
  {| environ := environ w; entropy := entropy w; faults := faults w;
     buckets := buckets w; page_size := page_size w; signer := signer w;
     db_open := db_open w; db_next := db_next w; db_now := db_now w;
     loop_clock := loop_clock w; stdout := stdout w; calls := l;
     int_of_str := int_of_str w |}.

(** ** The monad of handlers: state over the world, with exceptions *)

Definition M (A : Type) : Type := World -> outcome A * World.

Definition ret_ {A} (a : A) : M A := fun w => (Returned a, w).

Definition bind {A B} (m : M A) (k : A -> M B) : M B :=
  fun w => match m w with
           | (Returned a, w') => k a w'
           | (Raised e, w') => (Raised e, w')
           end.

Definition raise {A} (e : exn) : M A := fun w => (Raised e, w).

(** [try: body / except Exception as e: handler e].  An exception raised
    by the handler itself propagates. *)
Definition try_except {A} (body : M A) (handler : exn -> M A) : M A :=
  fun w => match body w with
           | (Returned a, w') => (Returned a, w')
           | (Raised e, w') => handler e w'
           end.

Definition get {A} (f : World -> A) : M A := fun w => (Returned (f w), w).
Definition modify (f : World -> World) : M unit := fun w => (Returned tt, f w).

Notation "x <- c ;; k" := (bind c (fun x => k))
  (at level 100, c at next level, right associativity).
Notation "c ;; k" := (bind c (fun _ => k))
  (at level 100, right associativity).

(** ** The calls the handlers make *)

Definition lift {A} (o : outcome A) : M A := fun w => (o, w).

Definition log (c : call) : M unit :=
  modify (fun w => set_calls (calls w ++ [c]) w).

(** [os.getenv(name)]: the environment of the process at the time of the
    call. *)
Definition getenv (name : string) : M (option string) :=
  get (fun w => environ w !! name).

(** [print(s)]. *)
Definition print (s : string) : M unit :=
  modify (fun w => set_stdout (stdout w ++ [s]) w).

(** [asyncio.get_event_loop().time()]. *)
Definition loop_time : M value :=
  get (fun w => VClock (loop_clock w)).

Module PyInt.

(** [int(x)] where [x] is what [os.getenv] returned.  On [None] it is a
    [TypeError]; on text the answer (the number, or the [ValueError]) is
    the interpreter's, which the world holds. *)
Definition int (x : option string) : M Z :=
  match x with
  | None =>
      raise (OtherException "TypeError"
        "int() argument must be a string, a bytes-like object or a real number, not 'NoneType'")
  | Some s => read <- get int_of_str ;; lift (read s)
  end.

End PyInt.

(** [uuid.uuid4()]: consumes sixteen random bytes. *)
Definition uuid4 : M Z :=
  fun w => (Returned (Uuid.of_random (hd 0 (entropy w))),
            set_entropy (tl (entropy w)) w).

(** A remote call first meets its fate: the network, the credentials
    and the service may fail it. *)
Definition remote : M unit :=
  fun w => (match hd None (faults w) with
            | Some e => Raised e
            | None => Returned tt
            end,
            set_faults (tl (faults w)) w).

Module S3.

Record ObjectSummary := { Key : string; Size : Z }.

Record ListResponse := {
  Contents : option (list ObjectSummary);
  IsTruncated : bool;
  NextContinuationToken : option string }.

Definition key_le (a b : string) : Prop := String.leb a b = true.

#[local] Instance key_le_dec a b : Decision (key_le a b).
Proof. unfold key_le. apply _. Defined.

(** The keys of a bucket in the order the service lists them. *)
Definition sorted_keys (objs : gmap string S3Object) : list string :=
  merge_sort key_le (fst <$> map_to_list objs).

Definition summary (objs : gmap string S3Object) (k : string) : ObjectSummary :=
  {| Key := k;
     Size := match objs !! k with
             | Some o => Z.of_nat (length (obj_body o))
             | None => 0
             end |}.

(** The SDK checks the parameters of a call before anything is sent, and
    reports a [None] where a string is due. *)
Definition invalid_type (param : string) : exn :=
  OtherException "ParamValidationError"
    ("Parameter validation failed:" +:+ String "010"
       ("Invalid type for parameter " +:+ param +:+
        ", value: None, type: <class 'NoneType'>, valid types: <class 'str'>")).

Definition no_bucket {A} : M A := raise (invalid_type "Bucket").

Definition no_content_type {A} : M A := raise (invalid_type "ContentType").

Definition no_such_bucket {A} : M A :=
  raise (ClientError "NoSuchBucket").

(** [client.upload_fileobj(fileobj, bucket, key, ExtraArgs={"ContentType": ct})]:
    a bucket or a content type that is [None] is refused by the SDK
    before the store is contacted. *)
Definition upload_fileobj (client : S3Client) (fileobj : list Byte.byte)
    (bucket : option string) (key : string) (ct : option string) : M unit :=
  log (CallUpload bucket key ct) ;;
  match bucket, ct with
  | None, _ => no_bucket
  | Some _, None => no_content_type
  | Some b, Some _ =>
      remote ;;
      bs <- get buckets ;;
      match bs !! b with
      | None => no_such_bucket
      | Some objs =>
          let o := {| obj_body := fileobj; obj_content_type := ct |} in
          modify (set_buckets (<[b := <[key := o]> objs]> bs))
      end
  end.

(** [client.list_objects_v2(Bucket=bucket)]: one page, from the start.
    [Contents] is absent from the response of an empty listing. *)
Definition list_objects_v2 (client : S3Client) (bucket : option string)
    : M ListResponse :=
  log (CallList bucket None) ;;
  match bucket with
  | None => no_bucket
  | Some b =>
      remote ;;
      bs <- get buckets ;;
      n <- get page_size ;;
      match bs !! b with
      | None => no_such_bucket
      | Some objs =>
          let keys := sorted_keys objs in
          let page := take n keys in
          let more := (n <? length keys)%nat in
          ret_ {| Contents := match page with
                              | [] => None
                              | _ => Some (summary objs <$> page)
                              end;
                  IsTruncated := more;
                  NextContinuationToken :=
                    if more then last page else None |}
      end
  end.

(** [client.generate_presigned_url(method, Params={'Bucket': .., 'Key': ..},
    ExpiresIn=..)]: computed by the SDK from the client's credentials and
    the request; the bucket is not contacted. *)
Definition generate_presigned_url (client : S3Client) (method : string)
    (bucket : option string) (key : string) (expires_in : Z) : M string :=
  let req := {| pr_client := client; pr_method := method; pr_bucket := bucket;
                pr_key := key; pr_expires_in := expires_in |} in
  log (CallPresign req) ;;
  sign <- get signer ;;
  lift (sign req).

End S3.

Module Pg.

Definition Record_ := list (string * value).

(** [asyncpg.connect(...)]: a new connection, open on the server. *)
Definition connect (args : ConnectArgs) : M nat :=
  log (CallConnect args) ;;
  remote ;;
  c <- get db_next ;;
  modify (fun w => set_db (db_open w ++ [c]) (S c) w) ;;
  ret_ c.

Definition closed_conn {A} : M A :=
  raise (OtherException "InterfaceError" "connection is closed").

(** [conn.fetchrow(query)] for the one query the service sends. *)
Definition fetchrow (conn : nat) (query : string) : M Record_ :=
  log (CallFetchrow conn query) ;;
  remote ;;
  open <- get db_open ;;
  if bool_decide (conn ∈ open) then
    now <- get db_now ;;
    ret_ [("current_time", VDatetime now)]
  else closed_conn.

(** [conn.close()] *)
Definition close (conn : nat) : M unit :=
  log (CallClose conn) ;;
  remote ;;
  modify (fun w => set_db (filter (fun c => c ≠ conn) (db_open w)) (db_next w) w).

(** [row[column]] *)
Definition item (row : Record_) (column : string) : M value :=
  match dict_get column row with
  | Some v => ret_ v
  | None => raise (OtherException "KeyError" column)
  end.

End Pg.

(** ** The application *)

(** What the module binds when it is imported: the [boto3] client, built
    from three environment variables, and [S3_BUCKET_NAME]. *)
Record App := { s3_client : S3Client; S3_BUCKET_NAME : option string }.

Definition startup : M App :=
  access_key <- getenv "AWS_ACCESS_KEY_ID" ;;
  secret <- getenv "AWS_SECRET_ACCESS_KEY" ;;
  region <- getenv "AWS_REGION" ;;
  bucket <- getenv "S3_BUCKET_NAME" ;;
  ret_ {| s3_client := {| aws_access_key_id := access_key;
                          aws_secret_access_key := secret;
                          region_name := region |};
          S3_BUCKET_NAME := bucket |}.

(** Starlette's [UploadFile]. *)
Record UploadFile := {
  filename : option string;
  content_type : option string;
  size : option Z;
  file : list Byte.byte }.

Definition create_default_context : SSLContext :=
  {| check_hostname := true; verify := CERT_REQUIRED |}.

Definition connect_db : M (option nat) :=
  try_except
    (let ssl_context := create_default_context in
     let ssl_context := {| check_hostname := false; verify := verify ssl_context |} in
     let ssl_context := {| check_hostname := check_hostname ssl_context;
                           verify := CERT_NONE |} in
     user <- getenv "DB_USER" ;;
     password <- getenv "DB_PASSWORD" ;;
     database <- getenv "DB_NAME" ;;
     host <- getenv "DB_HOST" ;;
     port_s <- getenv "DB_PORT" ;;
     port <- PyInt.int port_s ;;
     conn <- Pg.connect {| ca_user := user; ca_password := password;
                           ca_database := database; ca_host := host;
                           ca_port := port; ca_ssl := ssl_context |} ;;
     ret_ (Some conn))
    (fun e =>
       print ("Error connecting to DB: " +:+ exn_str e) ;;
       ret_ None).

Definition health_check : M ret :=
  ret_ (JSONResponse (VDict [("status", VStr "ok")]) 200).

Definition root : M ret :=
  t <- loop_time ;;
  origin <- getenv "FRONTEND_DOMAIN" ;;
  ret_ (Dict [("message", VStr "🚀 Deployment Successful!");
              ("status", VStr "running");
              ("timestamp", t);
              ("origin", of_opt_str origin)]).

Definition api_hello : M ret :=
  ret_ (Dict [("message", VStr "Hello from the backend!")]).

Definition get_data : M ret :=
  try_except
    (conn <- connect_db ;;
     match conn with
     | None => ret_ (Dict [("error", VStr "Database connection failed")])
     | Some conn =>
         row <- Pg.fetchrow conn "SELECT NOW() as current_time" ;;
         Pg.close conn ;;
         date <- Pg.item row "current_time" ;;
         ret_ (Dict [("Date", date);
                     ("message", VStr "Hello from the database!")])
     end)
    (fun e => ret_ (Dict [("error", VStr ("Server error: " +:+ exn_str e))])).

Definition debug_env_names : list string :=
  ["AWS_ACCESS_KEY_ID"; "AWS_SECRET_ACCESS_KEY"; "AWS_REGION"; "S3_BUCKET_NAME";
   "DB_USER"; "DB_PASSWORD"; "DB_NAME"; "DB_HOST"; "DB_PORT"; "FRONTEND_DOMAIN"].

Definition debug_env : M ret :=
  v1 <- getenv "AWS_ACCESS_KEY_ID" ;;
  v2 <- getenv "AWS_SECRET_ACCESS_KEY" ;;
  v3 <- getenv "AWS_REGION" ;;
  v4 <- getenv "S3_BUCKET_NAME" ;;
  v5 <- getenv "DB_USER" ;;
  v6 <- getenv "DB_PASSWORD" ;;
  v7 <- getenv "DB_NAME" ;;
  v8 <- getenv "DB_HOST" ;;
  v9 <- getenv "DB_PORT" ;;
  v10 <- getenv "FRONTEND_DOMAIN" ;;
  ret_ (Dict [("AWS_ACCESS_KEY_ID", of_opt_str v1);
              ("AWS_SECRET_ACCESS_KEY", of_opt_str v2);
              ("AWS_REGION", of_opt_str v3);
              ("S3_BUCKET_NAME", of_opt_str v4);
              ("DB_USER", of_opt_str v5);
              ("DB_PASSWORD", of_opt_str v6);
              ("DB_NAME", of_opt_str v7);
              ("DB_HOST", of_opt_str v8);
              ("DB_PORT", of_opt_str v9);
              ("FRONTEND_DOMAIN", of_opt_str v10)]).

(** [file.filename.split(".")[-1]] *)
Definition extension (f : UploadFile) : M string :=
  match filename f with
  | None =>
      raise (OtherException "AttributeError"
               "'NoneType' object has no attribute 'split'")
  | Some name =>
      match PyStr.last_item (PyStr.split "." name) with
      | Some ext => ret_ ext
      | None => raise (OtherException "IndexError" "list index out of range")
      end
  end.

Definition object_key (u : Z) (ext : string) : string :=
  "images/" +:+ Uuid.str u +:+ "." +:+ ext.

Definition public_url (bucket : option string) (key : string) : string :=
  "https://" +:+ PyStr.fmt_opt bucket +:+ ".s3.amazonaws.com/" +:+ key.

Definition upload_file (app : App) (f : UploadFile) : M ret :=
  try_except
    (ext <- extension f ;;
     u <- uuid4 ;;
     let unique_filename := object_key u ext in
     S3.upload_fileobj (s3_client app) (file f) (S3_BUCKET_NAME app)
       unique_filename (content_type f) ;;
     let file_url := public_url (S3_BUCKET_NAME app) unique_filename in
     ret_ (Dict [("message", VStr "File uploaded successfully");
                 ("filename", VStr unique_filename);
                 ("file_url", VStr file_url);
                 ("content_type", of_opt_str (content_type f));
                 ("size", of_opt_int (size f))]))
    (fun e =>
       match e with
       | ClientError _ =>
           raise (HTTPException 500 ("S3 upload failed: " +:+ exn_str e))
       | _ => raise (HTTPException 500 ("Upload failed: " +:+ exn_str e))
       end).

Definition list_images (app : App) : M ret :=
  try_except
    (response <- S3.list_objects_v2 (s3_client app) (S3_BUCKET_NAME app) ;;
     let images := S3.Key <$> default [] (S3.Contents response) in
     ret_ (Dict [("images", VList (VStr <$> images))]))
    (fun e =>
       raise (HTTPException 500 ("Failed to list images: " +:+ exn_str e))).

Definition get_presigned_url (app : App) (filename : string) : M ret :=
  try_except
    (url <- S3.generate_presigned_url (s3_client app) "get_object"
              (S3_BUCKET_NAME app) filename 3600 ;;
     ret_ (Dict [("url", VStr url)]))
    (fun e =>
       raise (HTTPException 500
                ("Presigned URL generation failed: " +:+ exn_str e))).

(** The routes of [main.py]; the router mounted under [/v1] lives in
    another module. *)
Inductive request : Type :=
| GET_health
| GET_root
| GET_api_hello
| GET_api_data
| GET_api_debug_env
| POST_api_upload (f : UploadFile)
| GET_api_list_images
| GET_api_generate_presigned_url (filename : string).

Definition handler (app : App) (r : request) : M ret :=
  match r with
  | GET_health => health_check
  | GET_root => root
  | GET_api_hello => api_hello
  | GET_api_data => get_data
  | GET_api_debug_env => debug_env
  | POST_api_upload f => upload_file app f
  | GET_api_list_images => list_images app
  | GET_api_generate_presigned_url filename => get_presigned_url app filename
  end.

(** One request, served: the response sent and the world left behind. *)
Definition respond (app : App) (r : request) (w : World) : Response * World :=
  let (o, w') := handler app r w in (serve o, w').

(** ** Vocabulary of the statements *)

(** The identifier the next [uuid.uuid4()] will return in this world. *)
Definition next_uuid (w : World) : Z :=
  match uuid4 w with
  | (Returned u, _) => u
  | (Raised _, _) => 0
  end.

(** The bucket the service was configured with exists and the coming
    remote call goes through. *)
Definition store_ready (app : App) (w : World) : Prop :=
  hd None (faults w) = None /\
  exists b, S3_BUCKET_NAME app = Some b /\ is_Some (buckets w !! b).

(** The objects of the configured bucket, when there is one. *)
Definition bucket_objects (app : App) (w : World) : option (gmap string S3Object) :=
  b ← S3_BUCKET_NAME app; buckets w !! b.

(** The key a successful upload reports. *)
Definition returned_key (o : outcome ret) : option string :=
  match o with
  | Returned (Dict d) =>
      match dict_get "filename" d with
      | Some (VStr k) => Some k
      | _ => None
      end
  | _ => None
  end.

(** [connect_db] came back with [None]. *)
Definition connection_fails (w : World) : Prop :=
  fst (connect_db w) = Returned None.

(** [connect_db] came back with a connection and [fetchrow] raised. *)
Definition query_fails (w : World) : Prop :=
  exists conn w1 e,
    connect_db w = (Returned (Some conn), w1) /\
    fst (Pg.fetchrow conn "SELECT NOW() as current_time" w1) = Raised e.

(** The routes whose handlers call [os.getenv] while serving. *)
Definition reads_environ (r : request) : bool :=
  match r with
  | GET_root | GET_api_data | GET_api_debug_env => true
  | _ => false
  end.

(** The request a call to [get_presigned_url] hands to the signer. *)
Definition presign_request (app : App) (filename : string) : PresignRequest :=
  {| pr_client := s3_client app; pr_method := "get_object";
     pr_bucket := S3_BUCKET_NAME app; pr_key := filename;
     pr_expires_in := 3600 |}.

(** What [int(os.getenv("DB_PORT"))] gives in this world. *)
Definition db_port (w : World) : outcome Z :=
  fst (PyInt.int (environ w !! "DB_PORT") w).

(** The fate of the [i]-th remote call to come ([None]: it goes
    through). *)
Definition fate (i : nat) (w : World) : option exn :=
  hd None (Nat.iter i (@tl (option exn)) (faults w)).

(** The arguments [connect_db] passes to [asyncpg.connect] in a world
    whose [DB_PORT] reads as the integer [port]. *)
Definition connect_args_of (w : World) (port : Z) : ConnectArgs :=
  {| ca_user := environ w !! "DB_USER";
     ca_password := environ w !! "DB_PASSWORD";
     ca_database := environ w !! "DB_NAME";
     ca_host := environ w !! "DB_HOST";
     ca_port := port;
     ca_ssl := {| check_hostname := false; verify := CERT_NONE |} |}.

(** A lowercase hexadecimal digit. *)
Definition is_hex (c : ascii) : bool :=
  let n := nat_of_ascii c in
  ((48 <=? n) && (n <=? 57) || (97 <=? n) && (n <=? 102))%nat.

(** The routes that talk to the object store. *)
Definition uses_store (r : request) : bool :=
  match r with
  | POST_api_upload _ | GET_api_list_images | GET_api_generate_presigned_url _ => true
  | _ => false
  end.

(** ** A sample deployment, for running the handlers *)

Module Sample.

Definition env : gmap string string :=
  list_to_map
    [("AWS_ACCESS_KEY_ID", "AKIAEXAMPLE"); ("AWS_SECRET_ACCESS_KEY", "s3cr3t");
     ("AWS_REGION", "eu-west-1"); ("S3_BUCKET_NAME", "portfolio");
     ("DB_USER", "app"); ("DB_PASSWORD", "hunter2"); ("DB_NAME", "appdb");
     ("DB_HOST", "db.internal"); ("DB_PORT", "5432");
     ("FRONTEND_DOMAIN", "https://example.org")].

(** The [int] of the sample worlds.  It reads a run of ASCII decimal
    digits as Python does and answers [ValueError] to every other text;
    no sample environment holds a text of the second kind. *)
Fixpoint digits_value (s : string) (acc : Z) : option Z :=
  match s with
  | EmptyString => Some acc
  | String c s' =>
      let n := nat_of_ascii c in
      if ((48 <=? n) && (n <=? 57))%nat
      then digits_value s' (10 * acc + (Z.of_nat n - 48))
      else None
  end.

Definition read_decimal (s : string) : outcome Z :=
  match s, digits_value s 0 with
  | String _ _, Some n => Returned n
  | _, _ => Raised (OtherException "ValueError" "invalid literal for int() with base 10")
  end.

Definition sign (req : PresignRequest) : outcome string :=
  match aws_access_key_id (pr_client req), pr_bucket req with
  | Some id, Some b =>
      Returned ("https://" +:+ b +:+ ".s3.amazonaws.com/" +:+ pr_key req
                +:+ "?X-Amz-Credential=" +:+ id +:+ "&X-Amz-Expires=3600")
  | _, _ => Raised (OtherException "NoCredentialsError" "Unable to locate credentials")
  end.

Definition png : S3Object :=
  {| obj_body := [Byte.x89; Byte.x50]; obj_content_type := Some "image/png" |}.

Definition objects : gmap string S3Object :=
  list_to_map [("images/b.png", png); ("images/a.png", png); ("images/c.png", png)].

Definition world : World :=
  {| environ := env;
     entropy := [0x0123456789abcdef0123456789abcdef; 0xfedcba9876543210fedcba9876543210];
     faults := [];
     buckets := {[ "portfolio" := objects ]};
     page_size := 2;
     signer := sign;
     db_open := [];
     db_next := 0;
     db_now := 1700000000000000;
     loop_clock := 42;
     stdout := [];
     calls := [];
     int_of_str := read_decimal |}.

Definition app : App :=
  match startup world with
  | (Returned a, _) => a
  | _ => {| s3_client := {| aws_access_key_id := None; aws_secret_access_key := None;
                            region_name := None |};
            S3_BUCKET_NAME := None |}
  end.

Definition photo : UploadFile :=
  {| filename := Some "photo.png"; content_type := Some "image/png";
     size := Some 2; file := [Byte.x89; Byte.x50] |}.

Definition readme : UploadFile :=
  {| filename := Some "README"; content_type := Some "text/plain";
     size := Some 1; file := [Byte.x0a] |}.

Definition connect_args : ConnectArgs :=
  {| ca_user := Some "app"; ca_password := Some "hunter2";
     ca_database := Some "appdb"; ca_host := Some "db.internal";
     ca_port := 5432;
     ca_ssl := {| check_hostname := false; verify := CERT_NONE |} |}.

(** The database refuses the connection. *)
Definition db_down : World :=
  set_faults [Some (OtherException "OSError" "connection refused")] world.

(** The connection is made, then the query is cancelled. *)
Definition query_error : World :=
  set_faults [None; Some (OtherException "QueryCanceledError" "canceling statement")]
    world.

Definition tarball : UploadFile :=
  {| filename := Some "backup.2024.tar.gz"; content_type := Some "application/gzip";
     size := Some 1; file := [Byte.x1f] |}.

(** A part named [photo.png] that came without a [Content-Type]. *)
Definition headerless : UploadFile :=
  {| filename := Some "photo.png"; content_type := None;
     size := Some 2; file := [Byte.x89; Byte.x50] |}.

(** A part that came without a file name. *)
Definition nameless : UploadFile :=
  {| filename := None; content_type := None; size := None; file := [] |}.

(** The store refuses the next call. *)
Definition s3_denied : World :=
  set_faults [Some (ClientError "AccessDenied")] world.

(** [DB_PORT] is not set. *)
Definition no_port : World := set_environ (delete "DB_PORT" env) world.

(** The query is answered, then closing the connection fails. *)
Definition close_error : World :=
  set_faults [None; None; Some (OtherException "InterfaceError" "connection lost")]
    world.

(** The bucket exists and holds nothing. *)
Definition empty_bucket : World := set_buckets {[ "portfolio" := ∅ ]} world.

(** The store serves pages of a thousand keys. *)
Definition roomy : World :=
  {| environ := env; entropy := entropy world; faults := [];
     buckets := buckets world; page_size := 1000; signer := sign;
     db_open := []; db_next := 0; db_now := db_now world;
     loop_clock := loop_clock world; stdout := []; calls := [];
     int_of_str := read_decimal |}.

Definition drawing : UploadFile :=
  {| filename := Some "drawing.png"; content_type := Some "image/png";
     size := Some 1; file := [Byte.x42] |}.

(** The random source returns the same sixteen bytes twice. *)
Definition stuck_random : World := set_entropy [7; 7] world.

End Sample.

(** * Properties *)

(** ** The library functions, run *)

Example split_photo : PyStr.split "." "photo.png" = ["photo"; "png"].
Proof. reflexivity. Qed.

Example split_nodot : PyStr.split "." "README" = ["README"].
Proof. reflexivity. Qed.

Example split_trailing : PyStr.split "." "a.b." = ["a"; "b"; ""].
Proof. reflexivity. Qed.

Example uuid_str_example :
  Uuid.str (Uuid.of_random 0) = "00000000-0000-4000-8000-000000000000".
Proof. vm_compute. reflexivity. Qed.

Example uuid_str_example2 :
  Uuid.str (Uuid.of_random (2 ^ 128 - 1)) = "ffffffff-ffff-4fff-bfff-ffffffffffff".
Proof. vm_compute. reflexivity. Qed.

Example int_port : db_port Sample.world = Returned 5432.
Proof. reflexivity. Qed.


(** ** Strings *)

Lemma string_app_length (s t : string) :
  String.length (s +:+ t) = (String.length s + String.length t)%nat.
Proof. induction s as [|c s IH]; simpl; [reflexivity | now rewrite IH]. Qed.

Lemma string_app_inj_same_length (s1 s2 t1 t2 : string) :
  String.length s1 = String.length s2 ->
  s1 +:+ t1 = s2 +:+ t2 -> s1 = s2 /\ t1 = t2.
Proof.
  revert s2. induction s1 as [|c s1 IH]; intros [|d s2] Hlen Heq;
    simpl in *; try discriminate.
  - now split.
  - injection Heq as -> Heq. injection Hlen as Hlen.
    destruct (IH _ Hlen Heq) as [-> ->]. now split.
Qed.

Lemma string_app_inv_head (p s t : string) : p +:+ s = p +:+ t -> s = t.
Proof.
  intros H. now destruct (string_app_inj_same_length p p s t eq_refl H).
Qed.

Lemma string_app_assoc (a b c : string) : (a +:+ b) +:+ c = a +:+ b +:+ c.
Proof.
  induction a as [|x a IH]; [reflexivity|].
  change (String x ((a +:+ b) +:+ c) = String x (a +:+ b +:+ c)).
  now rewrite IH.
Qed.

Lemma string_app_nil_r (a : string) : a +:+ "" = a.
Proof.
  induction a as [|x a IH]; [reflexivity|].
  change (String x (a +:+ "") = String x a). now rewrite IH.
Qed.

Lemma length_string_of_list_ascii (l : list ascii) :
  String.length (string_of_list_ascii l) = length l.
Proof. induction l as [|c l IH]; simpl; [reflexivity | now rewrite IH]. Qed.

(** ** [split] *)

Lemma split_not_nil sep s : PyStr.split sep s <> [].
Proof.
  destruct s as [|c s]; simpl; [discriminate|].
  destruct (Ascii.eqb c sep); [discriminate|].
  destruct (PyStr.split sep s); discriminate.
Qed.

Lemma split_no_sep sep s :
  PyStr.contains_char sep s = false -> PyStr.split sep s = [s].
Proof.
  induction s as [|c s IH]; simpl; [reflexivity|].
  intros H. apply orb_false_iff in H as [Hc Hs].
  rewrite Hc, (IH Hs). reflexivity.
Qed.

(** ** UUIDs *)

Lemma hex_digit_inj a b :
  0 <= a < 16 -> 0 <= b < 16 -> Uuid.hex_digit a = Uuid.hex_digit b -> a = b.
Proof.
  intros Ha Hb H. apply Z2Nat.inj; [lia..|].
  assert (Hn : (Z.to_nat a < 16)%nat) by lia.
  assert (Hm : (Z.to_nat b < 16)%nat) by lia.
  unfold Uuid.hex_digit in H.
  revert H Hn Hm. generalize (Z.to_nat a) (Z.to_nat b). intros n m H Hn Hm.
  do 16 (destruct n as [|n]; [do 16 (destruct m as [|m];
    [first [reflexivity | discriminate H]|]); lia|]); lia.
Qed.

Lemma hex_digits_length k n : length (Uuid.hex_digits k n) = k.
Proof.
  revert n. induction k as [|k IH]; intros n; simpl; [reflexivity|].
  rewrite length_app, IH. simpl. lia.
Qed.

Lemma hex_digits_inj k a b :
  0 <= a < 16 ^ Z.of_nat k -> 0 <= b < 16 ^ Z.of_nat k ->
  Uuid.hex_digits k a = Uuid.hex_digits k b -> a = b.
Proof.
  revert a b. induction k as [|k IH]; intros a b Ha Hb H.
  - simpl in Ha, Hb. lia.
  - rewrite Nat2Z.inj_succ, Z.pow_succ_r in Ha, Hb by lia.
    simpl in H. apply app_inj_tail in H as [Hq Hr].
    assert (a / 16 = b / 16) as Hq'.
    { apply IH; [| |exact Hq]; split;
        try (apply Z.div_pos; lia); apply Z.div_lt_upper_bound; lia. }
    assert (a mod 16 = b mod 16) as Hr'.
    { apply hex_digit_inj; [apply Z.mod_pos_bound; lia..|exact Hr]. }
    rewrite (Z.div_mod a 16), (Z.div_mod b 16) by lia. congruence.
Qed.

Lemma dashed_length h : length h = 32%nat -> length (Uuid.dashed h) = 36%nat.
Proof.
  intros H. unfold Uuid.dashed.
  repeat (rewrite ?length_app, ?length_take, ?length_drop, ?length_cons).
  rewrite H. reflexivity.
Qed.

Lemma dashed_inj h h' :
  length h = 32%nat -> length h' = 32%nat ->
  Uuid.dashed h = Uuid.dashed h' -> h = h'.
Proof.
  intros H H' E.
  do 32 (destruct h as [|? h]; [simpl in H; lia|]).
  destruct h; [|simpl in H; lia].
  do 32 (destruct h' as [|? h']; [simpl in H'; lia|]).
  destruct h'; [|simpl in H'; lia].
  cbv in E. congruence.
Qed.

Lemma uuid_str_length u : String.length (Uuid.str u) = 36%nat.
Proof.
  unfold Uuid.str. rewrite length_string_of_list_ascii.
  apply dashed_length, hex_digits_length.
Qed.

Lemma uuid_str_inj a b :
  0 <= a < 2 ^ 128 -> 0 <= b < 2 ^ 128 -> Uuid.str a = Uuid.str b -> a = b.
Proof.
  intros Ha Hb H. unfold Uuid.str in H.
  apply (f_equal list_ascii_of_string) in H.
  rewrite !list_ascii_of_string_of_list_ascii in H.
  apply dashed_inj in H; [|apply hex_digits_length..].
  apply (hex_digits_inj 32); [exact Ha | exact Hb | exact H].
Qed.

Lemma testbit_above_const c n :
  0 <= c < 2 ^ 128 -> 128 <= n -> Z.testbit c n = false.
Proof.
  intros Hc Hn. destruct (Z.eq_dec c 0) as [->|Hne]; [apply Z.bits_0|].
  apply Z.bits_above_log2; [lia|].
  assert (Z.log2 c < 128) by (apply Z.log2_lt_pow2; lia). lia.
Qed.

Lemma of_random_range r : 0 <= Uuid.of_random r < 2 ^ 128.
Proof.
  assert (Hnn : 0 <= Uuid.of_random r).
  { unfold Uuid.of_random. cbv zeta.
    apply Z.lor_nonneg. split; [|vm_compute; discriminate].
    apply Z.ldiff_nonneg. left.
    apply Z.lor_nonneg. split; [|vm_compute; discriminate].
    apply Z.ldiff_nonneg. left. apply Z.mod_pos_bound. lia. }
  split; [exact Hnn|].
  assert (E : Uuid.of_random r mod 2 ^ 128 = Uuid.of_random r).
  { apply Z.bits_inj'. intros n Hn.
    destruct (Z.lt_ge_cases n 128) as [Hlt|Hge].
    - apply Z.mod_pow2_bits_low. lia.
    - rewrite Z.mod_pow2_bits_high by lia.
      unfold Uuid.of_random. cbv zeta.
      repeat first [rewrite Z.lor_spec | rewrite Z.ldiff_spec].
      rewrite (Z.mod_pow2_bits_high r 128 n) by lia.
      rewrite (testbit_above_const (Z.shiftl 0x8000 48) n),
        (testbit_above_const (Z.shiftl 4 76) n); [reflexivity|..];
        first [exact Hge | vm_compute; split; [discriminate|reflexivity]]. }
  rewrite <- E. apply Z.mod_pos_bound. lia.
Qed.

(** ** Running handlers *)

Ltac run :=
  cbv [respond handler serve
       upload_file list_images get_presigned_url get_data debug_env root
       health_check api_hello connect_db extension startup
       S3.upload_fileobj S3.list_objects_v2 S3.generate_presigned_url
       S3.no_bucket S3.no_such_bucket
       Pg.connect Pg.fetchrow Pg.close Pg.item Pg.closed_conn
       bind ret_ raise try_except get modify lift log getenv print
       loop_time uuid4 remote PyInt.int S3.no_content_type S3.invalid_type
       int_of_str
       set_environ set_entropy set_faults set_buckets set_db set_stdout set_calls
       environ entropy faults buckets page_size signer db_open db_next db_now
       loop_clock stdout calls
       create_default_context check_hostname verify].

(** Case analysis on what the handler branches on, innermost first. *)
Ltac case_all :=
  repeat match goal with
         | |- context [match ?x with _ => _ end] =>
             lazymatch x with
             | context [match _ with _ => _ end] => fail
             | _ => destruct x eqn:?; cbv beta iota delta [fst snd]
             end
         end.

(** Case analysis on what [int(os.getenv("DB_PORT"))] gave, in a goal on
    a world taken apart. *)
Ltac port_cases H :=
  unfold db_port in H; revert H; run;
  destruct (_ !! "DB_PORT") as [?s|]; cbv [fst]; intros H;
  try discriminate H.

Lemma upload_file_run app f w name ext b objs :
  filename f = Some name ->
  PyStr.last_item (PyStr.split "." name) = Some ext ->
  S3_BUCKET_NAME app = Some b ->
  buckets w !! b = Some objs ->
  hd None (faults w) = None ->
  is_Some (content_type f) ->
  let key := object_key (Uuid.of_random (hd 0 (entropy w))) ext in
  let o := {| obj_body := file f; obj_content_type := content_type f |} in
  upload_file app f w =
  (Returned (Dict [("message", VStr "File uploaded successfully");
                   ("filename", VStr key);
                   ("file_url", VStr (public_url (Some b) key));
                   ("content_type", of_opt_str (content_type f));
                   ("size", of_opt_int (size f))]),
   set_buckets (<[b := <[key := o]> objs]> (buckets w))
     (set_faults (tl (faults w))
        (set_calls (calls w ++ [CallUpload (Some b) key (content_type f)])
           (set_entropy (tl (entropy w)) w)))).
Proof.
  intros Hname Hext Hb Hobjs Hfault [ct Hct] key o.
  destruct w as [env ent flt bks ps sg dbo dbn now clk out cls rd].
  simpl in Hobjs, Hfault. subst key o.
  run. rewrite Hname, Hext. run. rewrite Hb, Hct. run. rewrite Hfault, Hobjs.
  reflexivity.
Qed.

Lemma extension_run f name w :
  filename f = Some name ->
  exists ext,
    PyStr.last_item (PyStr.split "." name) = Some ext /\
    extension f w = (Returned ext, w).
Proof.
  intros Hname. unfold extension. rewrite Hname.
  destruct (PyStr.last_item (PyStr.split "." name)) as [ext|] eqn:E.
  - now exists ext.
  - unfold PyStr.last_item in E. apply last_None in E.
    now destruct (split_not_nil "." name).
Qed.

Lemma store_ready_inv app w :
  store_ready app w ->
  hd None (faults w) = None /\
  exists b objs, S3_BUCKET_NAME app = Some b /\ buckets w !! b = Some objs.
Proof.
  intros [Hf (b & Hb & objs & Ho)]. split; [exact Hf|]. now exists b, objs.
Qed.

Lemma public_url_contains b key : PyStr.contains (public_url b key) key.
Proof.
  exists ("https://" +:+ PyStr.fmt_opt b +:+ ".s3.amazonaws.com/"), "".
  unfold public_url.
  now rewrite string_app_nil_r, !string_app_assoc.
Qed.

(** Whenever [upload_file] returns, it returns the dictionary built
    from the identifier drawn and the last dot-separated piece of the
    file name. *)
Lemma upload_file_returned app f w r w' :
  upload_file app f w = (Returned r, w') ->
  exists name ext b,
    filename f = Some name /\
    PyStr.last_item (PyStr.split "." name) = Some ext /\
    S3_BUCKET_NAME app = Some b /\
    r = Dict [("message", VStr "File uploaded successfully");
              ("filename", VStr (object_key (next_uuid w) ext));
              ("file_url",
               VStr (public_url (Some b) (object_key (next_uuid w) ext)));
              ("content_type", of_opt_str (content_type f));
              ("size", of_opt_int (size f))].
Proof.
  destruct w as [env ent flt bks ps sg dbo dbn now clk out cls rd].
  unfold next_uuid. run.
  destruct (filename f) as [name|] eqn:Hname; [|discriminate].
  destruct (PyStr.last_item (PyStr.split "." name)) as [ext|] eqn:Hext;
    [|discriminate].
  destruct (S3_BUCKET_NAME app) as [b|] eqn:Hb; [|discriminate].
  destruct (content_type f) as [ct|] eqn:Hct; [|discriminate].
  destruct (hd None flt) as [e|]; [destruct e; discriminate|].
  destruct (bks !! b) as [objs|]; [|discriminate].
  intros [= <- _]. now exists name, ext, b.
Qed.

Lemma sample_store_ready : store_ready Sample.app Sample.world.
Proof.
  split; [reflexivity|].
  exists "portfolio". split; [reflexivity|].
  eexists. apply lookup_singleton_eq.
Qed.

(** C1. An upload of a file named [photo.png] that declares a content
    type, when the configured bucket takes it, is answered with status
    200 and the key
    [images/<uuid>.png] (the fixed prefix, the 36 characters of the
    identifier just drawn, the extension of the file name), with a
    [file_url] that contains that key; the object is stored under the
    key and the random bytes are used up. *)
Theorem upload_photo_png app f w :
  filename f = Some "photo.png" ->
  is_Some (content_type f) ->
  store_ready app w ->
  exists key url,
    key = "images/" +:+ Uuid.str (next_uuid w) +:+ ".png" /\
    String.length (Uuid.str (next_uuid w)) = 36%nat /\
    PyStr.contains url key /\
    fst (respond app (POST_api_upload f) w) =
      {| status := 200;
         body := VDict [("message", VStr "File uploaded successfully");
                        ("filename", VStr key);
                        ("file_url", VStr url);
                        ("content_type", of_opt_str (content_type f));
                        ("size", of_opt_int (size f))] |} /\
    (exists objs,
       bucket_objects app (snd (respond app (POST_api_upload f) w)) = Some objs /\
       objs !! key =
         Some {| obj_body := file f; obj_content_type := content_type f |}) /\
    entropy (snd (respond app (POST_api_upload f) w)) = tl (entropy w).
Proof.
  intros Hname Hct Hready.
  apply store_ready_inv in Hready as (Hfault & b & objs & Hb & Hobjs).
  pose proof (upload_file_run app f w "photo.png" "png" b objs
                Hname eq_refl Hb Hobjs Hfault Hct) as Hrun.
  cbv zeta in Hrun.
  exists (object_key (next_uuid w) "png"),
         (public_url (Some b) (object_key (next_uuid w) "png")).
  split; [reflexivity|].
  split; [apply uuid_str_length|].
  split; [apply public_url_contains|].
  unfold respond, handler. rewrite Hrun. cbn [fst snd serve].
  split; [reflexivity|].
  split; [|reflexivity].
  eexists. unfold bucket_objects. rewrite Hb. cbn [mbind option_bind buckets set_buckets].
  rewrite lookup_insert_eq. split; [reflexivity|].
  apply lookup_insert_eq.
Qed.

Lemma upload_photo_png_witness :
  exists key url,
    key = "images/" +:+ Uuid.str (next_uuid Sample.world) +:+ ".png" /\
    String.length (Uuid.str (next_uuid Sample.world)) = 36%nat /\
    PyStr.contains url key /\
    fst (respond Sample.app (POST_api_upload Sample.photo) Sample.world) =
      {| status := 200;
         body := VDict [("message", VStr "File uploaded successfully");
                        ("filename", VStr key);
                        ("file_url", VStr url);
                        ("content_type", VStr "image/png");
                        ("size", VInt 2)] |} /\
    (exists objs,
       bucket_objects Sample.app
         (snd (respond Sample.app (POST_api_upload Sample.photo) Sample.world))
         = Some objs /\
       objs !! key = Some Sample.png) /\
    entropy (snd (respond Sample.app (POST_api_upload Sample.photo) Sample.world))
      = tl (entropy Sample.world).
Proof.
  apply (upload_photo_png Sample.app Sample.photo Sample.world).
  - reflexivity.
  - eexists. reflexivity.
  - exact sample_store_ready.
Defined.

(** C10. A file name without a dot is its own extension: split on ['.']
    it is a single piece, so the upload (of a part that declares a
    content type, to a bucket that takes it) succeeds with the key
    [images/<uuid>.<the whole file name>] and nothing signals that the
    extension is missing. *)
Theorem upload_without_dot app f w name :
  filename f = Some name ->
  PyStr.contains_char "." name = false ->
  is_Some (content_type f) ->
  store_ready app w ->
  extension f w = (Returned name, w) /\
  exists url,
    fst (respond app (POST_api_upload f) w) =
      {| status := 200;
         body := VDict [("message", VStr "File uploaded successfully");
                        ("filename",
                         VStr ("images/" +:+ Uuid.str (next_uuid w) +:+ "." +:+ name));
                        ("file_url", VStr url);
                        ("content_type", of_opt_str (content_type f));
                        ("size", of_opt_int (size f))] |}.
Proof.
  intros Hname Hdot Hct Hready.
  apply store_ready_inv in Hready as (Hfault & b & objs & Hb & Hobjs).
  assert (Hext : PyStr.last_item (PyStr.split "." name) = Some name).
  { now rewrite (split_no_sep _ _ Hdot). }
  split.
  - unfold extension. now rewrite Hname, Hext.
  - pose proof (upload_file_run app f w name name b objs
                  Hname Hext Hb Hobjs Hfault Hct) as Hrun.
    cbv zeta in Hrun. eexists.
    unfold respond, handler. rewrite Hrun. reflexivity.
Qed.

Lemma upload_without_dot_witness :
  extension Sample.readme Sample.world = (Returned "README", Sample.world) /\
  exists url,
    fst (respond Sample.app (POST_api_upload Sample.readme) Sample.world) =
      {| status := 200;
         body := VDict [("message", VStr "File uploaded successfully");
                        ("filename",
                         VStr ("images/" +:+ Uuid.str (next_uuid Sample.world)
                               +:+ "." +:+ "README"));
                        ("file_url", VStr url);
                        ("content_type", VStr "text/plain");
                        ("size", VInt 1)] |}.
Proof.
  apply (upload_without_dot Sample.app Sample.readme Sample.world "README").
  - reflexivity.
  - reflexivity.
  - eexists. reflexivity.
  - exact sample_store_ready.
Defined.

(** C2. Two uploads never report the same key when the identifiers
    drawn for them differ, whatever the two files are (the same bytes
    under the same name included) and whatever state the bucket is in. *)
Theorem upload_keys_distinct app f1 f2 w1 w2 k1 k2 :
  returned_key (fst (upload_file app f1 w1)) = Some k1 ->
  returned_key (fst (upload_file app f2 w2)) = Some k2 ->
  next_uuid w1 <> next_uuid w2 ->
  k1 <> k2.
Proof.
  intros H1 H2 Hne Heq.
  destruct (upload_file app f1 w1) as [[r1|e1] w1'] eqn:E1; [|discriminate].
  destruct (upload_file app f2 w2) as [[r2|e2] w2'] eqn:E2; [|discriminate].
  apply upload_file_returned in E1 as (n1 & x1 & b1 & _ & _ & _ & ->).
  apply upload_file_returned in E2 as (n2 & x2 & b2 & _ & _ & _ & ->).
  cbn in H1, H2. injection H1 as <-. injection H2 as <-.
  unfold object_key in Heq.
  apply string_app_inv_head in Heq.
  apply string_app_inj_same_length in Heq as [Heq _];
    [|now rewrite !uuid_str_length].
  apply Hne. unfold next_uuid, uuid4 in *.
  apply uuid_str_inj; [apply of_random_range..|exact Heq].
Qed.

Lemma upload_keys_distinct_witness :
  "images/01234567-89ab-4def-8123-456789abcdef.png" <>
  "images/fedcba98-7654-4210-bedc-ba9876543210.png".
Proof.
  apply (upload_keys_distinct Sample.app Sample.photo Sample.photo
           Sample.world
           (snd (upload_file Sample.app Sample.photo Sample.world))).
  - vm_compute. reflexivity.
  - vm_compute. reflexivity.
  - vm_compute. discriminate.
Defined.

(** ** The database route *)

(** [connect_db] swallows every exception. *)
Lemma connect_db_returns w : exists conn w', connect_db w = (Returned conn, w').
Proof.
  destruct w as [env ent flt bks ps sg dbo dbn now clk out cls rd].
  run. case_all; eauto.
Qed.

(** A connection handed out by [connect_db] is open on the server, and
    one more connection is open than before. *)
Lemma connect_db_opens w conn w1 :
  connect_db w = (Returned (Some conn), w1) ->
  db_open w1 = (db_open w ++ [conn])%list /\ conn = db_next w.
Proof.
  destruct w as [env ent flt bks ps sg dbo dbn now clk out cls rd].
  run. case_all; intros H; first [discriminate H | injection H as Hc Hw];
    subst; cbn; now split.
Qed.

(** A failed [fetchrow] leaves the set of open connections as it was. *)
Lemma fetchrow_raises_keeps_open conn q w e w' :
  Pg.fetchrow conn q w = (Raised e, w') -> db_open w' = db_open w.
Proof.
  destruct w as [env ent flt bks ps sg dbo dbn now clk out cls rd].
  run. case_all; intros H; first [discriminate H | injection H as Hc Hw];
    subst; reflexivity.
Qed.

Lemma get_data_connect w :
  get_data w =
  try_except
    (fun w0 =>
       match connect_db w0 with
       | (Returned None, w1) =>
           (Returned (Dict [("error", VStr "Database connection failed")]), w1)
       | (Returned (Some conn), w1) =>
           (row <- Pg.fetchrow conn "SELECT NOW() as current_time" ;;
            Pg.close conn ;;
            date <- Pg.item row "current_time" ;;
            ret_ (Dict [("Date", date);
                        ("message", VStr "Hello from the database!")])) w1
       | (Raised e, w1) => (Raised e, w1)
       end)
    (fun e => ret_ (Dict [("error", VStr ("Server error: " +:+ exn_str e))])) w.
Proof.
  unfold get_data, try_except, bind at 1.
  destruct (connect_db w) as [[[conn|]|e] w1]; reflexivity.
Qed.

(** The handler of [/api/data] never lets an exception out. *)
Lemma get_data_never_raises w : exists d w', get_data w = (Returned (Dict d), w').
Proof.
  rewrite get_data_connect. unfold try_except.
  destruct (connect_db_returns w) as (conn & w1 & ->).
  destruct conn as [conn|]; [|eauto].
  destruct w1 as [env ent flt bks ps sg dbo dbn now clk out cls rd].
  run. case_all; eauto.
Qed.

(** C3. When the connection cannot be established, or it is established
    and the query raises, the handler of [/api/data] returns normally a
    dictionary with the single field ["error"], which is sent with
    status 200. *)
Theorem get_data_failure_is_200 app w :
  connection_fails w \/ query_fails w ->
  exists msg,
    fst (handler app GET_api_data w) = Returned (Dict [("error", VStr msg)]) /\
    fst (respond app GET_api_data w) =
      {| status := 200; body := VDict [("error", VStr msg)] |}.
Proof.
  intros H.
  assert (exists msg w',
            get_data w = (Returned (Dict [("error", VStr msg)]), w'))
    as (msg & w' & E).
  { rewrite get_data_connect. unfold try_except.
    destruct H as [H | (conn & w1 & e & Hc & Hq)].
    - unfold connection_fails in H.
      destruct (connect_db w) as [o w1]. simpl in H. subst o. eauto.
    - rewrite Hc. unfold bind at 1.
      destruct (Pg.fetchrow conn _ w1) as [o w2]. simpl in Hq. subst o.
      unfold ret_. eauto. }
  exists msg. unfold respond, handler. rewrite E. split; reflexivity.
Qed.

Lemma get_data_failure_is_200_witness :
  exists msg,
    fst (handler Sample.app GET_api_data Sample.db_down) =
      Returned (Dict [("error", VStr msg)]) /\
    fst (respond Sample.app GET_api_data Sample.db_down) =
      {| status := 200; body := VDict [("error", VStr msg)] |}.
Proof.
  apply (get_data_failure_is_200 Sample.app Sample.db_down).
  left. vm_compute. reflexivity.
Defined.

Example get_data_db_down :
  respond Sample.app GET_api_data Sample.db_down =
  ({| status := 200;
      body := VDict [("error", VStr "Database connection failed")] |},
   set_stdout ["Error connecting to DB: connection refused"]
     (set_calls [CallConnect Sample.connect_args]
        (set_faults [] Sample.db_down))).
Proof. vm_compute. reflexivity. Qed.

Example get_data_ok :
  fst (respond Sample.app GET_api_data Sample.world) =
  {| status := 200;
     body := VDict [("Date", VDatetime 1700000000000000);
                    ("message", VStr "Hello from the database!")] |}.
Proof. vm_compute. reflexivity. Qed.

(** The general shape of the leak: when the query raises, the connection
    [connect_db] opened is still open when the handler is done. *)
Lemma get_data_query_error_keeps_connection w :
  query_fails w ->
  db_open (snd (get_data w)) = (db_open w ++ [db_next w])%list.
Proof.
  intros (conn & w1 & e & Hc & Hq).
  rewrite get_data_connect. unfold try_except. rewrite Hc. unfold bind at 1.
  destruct (Pg.fetchrow conn _ w1) as [o w2] eqn:Hf. simpl in Hq. subst o.
  unfold ret_. cbn [snd].
  rewrite (fetchrow_raises_keeps_open _ _ _ _ _ Hf).
  now destruct (connect_db_opens _ _ _ Hc) as [-> ->].
Qed.

Lemma filter_keeps_all {A} (P : A -> Prop) `{forall x, Decision (P x)} (l : list A) :
  Forall P l -> filter P l = l.
Proof.
  induction 1 as [|x l Hx _ IH]; [reflexivity|].
  rewrite filter_cons_True by exact Hx. now rewrite IH.
Qed.

(** On the path where nothing fails the connection is closed again. *)
Lemma get_data_success_closes w port :
  faults w = [] ->
  db_port w = Returned port ->
  db_next w ∉ db_open w ->
  db_open (snd (get_data w)) = db_open w /\
  fst (get_data w) =
    Returned (Dict [("Date", VDatetime (db_now w));
                    ("message", VStr "Hello from the database!")]).
Proof.
  destruct w as [env ent flt bks ps sg dbo dbn now clk out cls rd].
  cbn [faults db_next db_open db_now].
  intros -> Hp Hfresh. port_cases Hp. rewrite Hp. run. cbn [hd tl].
  rewrite bool_decide_eq_true_2 by (apply elem_of_app; right; constructor).
  cbn. split; [|reflexivity].
  rewrite filter_app, filter_cons_False, filter_nil, app_nil_r by tauto.
  apply filter_keeps_all, Forall_forall. intros c Hc ->. contradiction.
Qed.

(** C7 (the code, at an input where the claim fails). The connection is
    established, the query raises: the handler answers 200 with an error
    body, [close] was never called and the connection it opened stays
    open. *)
Theorem get_data_query_error_leaks_connection :
  db_open Sample.query_error = [] /\
  fst (respond Sample.app GET_api_data Sample.query_error) =
    {| status := 200;
       body := VDict [("error", VStr "Server error: canceling statement")] |} /\
  calls (snd (respond Sample.app GET_api_data Sample.query_error)) =
    [CallConnect Sample.connect_args;
     CallFetchrow 0 "SELECT NOW() as current_time"] /\
  db_open (snd (respond Sample.app GET_api_data Sample.query_error)) = [0%nat].
Proof. vm_compute. repeat split; reflexivity. Qed.

(** ** The object-store routes *)

Lemma sorted_keys_perm (objs : gmap string S3Object) :
  S3.sorted_keys objs ≡ₚ (map_to_list objs).*1.
Proof. apply merge_sort_Permutation. Qed.

Lemma elem_of_sorted_keys (objs : gmap string S3Object) k :
  k ∈ S3.sorted_keys objs <-> is_Some (objs !! k).
Proof.
  rewrite sorted_keys_perm, list_elem_of_fmap. split.
  - intros [[k' o] [-> Hin]]. apply elem_of_map_to_list in Hin. now exists o.
  - intros [o Ho]. exists (k, o). split; [reflexivity|].
    now apply elem_of_map_to_list.
Qed.

Lemma NoDup_sorted_keys (objs : gmap string S3Object) :
  NoDup (S3.sorted_keys objs).
Proof. rewrite sorted_keys_perm. apply NoDup_fst_map_to_list. Qed.

Lemma length_sorted_keys (objs : gmap string S3Object) :
  length (S3.sorted_keys objs) = base.size objs.
Proof.
  rewrite sorted_keys_perm, length_fmap. apply length_map_to_list.
Qed.

(** A list without repetitions that is longer than [n] has an element
    outside its first [n]. *)
Lemma take_misses {A} (l : list A) n :
  NoDup l -> (n < length l)%nat -> exists x, x ∈ l /\ x ∉ take n l.
Proof.
  intros Hnd Hlen.
  rewrite <- (take_drop n l) in Hnd. apply NoDup_app in Hnd as (_ & Hdisj & _).
  destruct (drop n l) as [|x rest] eqn:E.
  - apply (f_equal length) in E. rewrite length_drop in E. simpl in E. lia.
  - exists x. split.
    + rewrite <- (take_drop n l), E. apply elem_of_app. right. constructor.
    + intros Hin. apply (Hdisj x Hin). constructor.
Qed.

Lemma keys_of_summaries objs (l : list string) :
  S3.Key <$> (S3.summary objs <$> l) = l.
Proof.
  induction l as [|k l IH]; [reflexivity|].
  rewrite !fmap_cons, IH. reflexivity.
Qed.

Lemma list_images_run app w b objs :
  S3_BUCKET_NAME app = Some b ->
  buckets w !! b = Some objs ->
  hd None (faults w) = None ->
  list_images app w =
  (Returned (Dict [("images",
                    VList (VStr <$> take (page_size w) (S3.sorted_keys objs)))]),
   set_faults (tl (faults w))
     (set_calls (calls w ++ [CallList (Some b) None]) w)).
Proof.
  intros Hb Hobjs Hfault.
  destruct w as [env ent flt bks ps sg dbo dbn now clk out cls rd].
  simpl in Hobjs, Hfault.
  run. rewrite Hb. run. rewrite Hfault, Hobjs.
  cbv [S3.Contents default id].
  destruct (take ps (S3.sorted_keys objs)) as [|k page] eqn:E; [reflexivity|].
  now rewrite keys_of_summaries.
Qed.

(** The other side of [list_images] and [get_presigned_url]: what the
    store or the signer raises becomes a 500. *)
Lemma list_images_fault app w e :
  is_Some (S3_BUCKET_NAME app) ->
  hd None (faults w) = Some e ->
  fst (respond app GET_api_list_images w) =
    {| status := 500;
       body := VDict [("detail", VStr ("Failed to list images: " +:+ exn_str e))] |}.
Proof.
  intros [b Hb] Hfault.
  destruct w as [env ent flt bks ps sg dbo dbn now clk out cls rd].
  cbn [faults] in Hfault. run. rewrite Hb. run. rewrite Hfault. reflexivity.
Qed.

Lemma get_presigned_url_fault app filename w e :
  signer w (presign_request app filename) = Raised e ->
  fst (respond app (GET_api_generate_presigned_url filename) w) =
    {| status := 500;
       body := VDict [("detail",
                       VStr ("Presigned URL generation failed: " +:+ exn_str e))] |}.
Proof.
  intros Hsign. unfold presign_request in Hsign.
  destruct w as [env ent flt bks ps sg dbo dbn now clk out cls rd].
  cbn [signer] in Hsign. run. rewrite Hsign. reflexivity.
Qed.

(** C5. When the listing goes through, [/api/list-images] answers 200
    with the keys of one listing call made without a continuation token:
    the first page of the bucket as it is at that moment.  Every key
    returned is a key of the bucket; a bucket that fits in one page is
    returned whole; of a bucket larger than a page exactly one page is
    returned and some key of the bucket is missing, with nothing in the
    response telling so. *)
Theorem list_images_first_page app w objs :
  bucket_objects app w = Some objs ->
  hd None (faults w) = None ->
  let page := take (page_size w) (S3.sorted_keys objs) in
  respond app GET_api_list_images w =
    ({| status := 200; body := VDict [("images", VList (VStr <$> page))] |},
     set_faults (tl (faults w))
       (set_calls (calls w ++ [CallList (S3_BUCKET_NAME app) None]) w)) /\
  Forall (fun k => is_Some (objs !! k)) page /\
  ((base.size objs <= page_size w)%nat ->
   forall k, is_Some (objs !! k) -> k ∈ page) /\
  ((page_size w < base.size objs)%nat ->
   length page = page_size w /\
   exists k, is_Some (objs !! k) /\ k ∉ page).
Proof.
  intros Hobjs Hfault page. unfold bucket_objects in Hobjs.
  destruct (S3_BUCKET_NAME app) as [b|] eqn:Hb; [|discriminate].
  cbn in Hobjs.
  split; [|split; [|split]].
  - unfold respond, handler.
    now rewrite (list_images_run app w b objs Hb Hobjs Hfault).
  - apply Forall_forall. intros k Hk. apply elem_of_sorted_keys.
    unfold page in Hk.
    now apply elem_of_take in Hk as (i & Hk%list_elem_of_lookup_2 & _).
  - intros Hfit k Hk. unfold page.
    rewrite take_ge by (rewrite length_sorted_keys; lia).
    now apply elem_of_sorted_keys.
  - intros Hmore. split.
    + unfold page. rewrite length_take, length_sorted_keys. lia.
    + rewrite <- length_sorted_keys in Hmore.
      destruct (take_misses _ _ (NoDup_sorted_keys objs) Hmore)
        as (k & Hin & Hout).
      exists k. split; [now apply elem_of_sorted_keys | exact Hout].
Qed.

Lemma list_images_first_page_witness :
  respond Sample.app GET_api_list_images Sample.world =
    ({| status := 200;
        body := VDict [("images", VList [VStr "images/a.png"; VStr "images/b.png"])] |},
     set_calls [CallList (Some "portfolio") None] Sample.world) /\
  (exists k, is_Some (Sample.objects !! k) /\
             k ∉ take 2 (S3.sorted_keys Sample.objects)).
Proof.
  destruct (list_images_first_page Sample.app Sample.world Sample.objects)
    as (Hrun & _ & _ & Hmore).
  - unfold bucket_objects. cbn. apply lookup_singleton_eq.
  - reflexivity.
  - split.
    + rewrite Hrun. vm_compute. reflexivity.
    + apply Hmore. vm_compute. lia.
Defined.

(** C4. [/api/generate-presigned-url] hands the signer one request,
    [get_object] on the configured bucket for exactly the key it was
    given, valid 3600 seconds, and answers 200 with the URL the signer
    made.  The key is any string; the bucket is neither read nor
    written, so the answer is the same whatever the bucket holds. *)
Theorem presigned_url_for_requested_key app filename w url :
  signer w (presign_request app filename) = Returned url ->
  respond app (GET_api_generate_presigned_url filename) w =
    ({| status := 200; body := VDict [("url", VStr url)] |},
     set_calls (calls w ++ [CallPresign (presign_request app filename)]) w) /\
  presign_request app filename =
    {| pr_client := s3_client app; pr_method := "get_object";
       pr_bucket := S3_BUCKET_NAME app; pr_key := filename;
       pr_expires_in := 3600 |} /\
  forall bs,
    fst (respond app (GET_api_generate_presigned_url filename) (set_buckets bs w)) =
      {| status := 200; body := VDict [("url", VStr url)] |}.
Proof.
  intros Hsign. unfold presign_request in *.
  destruct w as [env ent flt bks ps sg dbo dbn now clk out cls rd].
  cbn [signer] in Hsign.
  split; [|split; [reflexivity|intros bs]]; run; rewrite Hsign; reflexivity.
Qed.

Lemma presigned_url_for_requested_key_witness :
  Sample.objects !! "images/x.png" = None /\
  respond Sample.app (GET_api_generate_presigned_url "images/x.png") Sample.world =
    ({| status := 200;
        body := VDict [("url",
          VStr "https://portfolio.s3.amazonaws.com/images/x.png?X-Amz-Credential=AKIAEXAMPLE&X-Amz-Expires=3600")] |},
     set_calls [CallPresign (presign_request Sample.app "images/x.png")]
       Sample.world).
Proof.
  split; [vm_compute; reflexivity|].
  apply (presigned_url_for_requested_key Sample.app "images/x.png" Sample.world).
  vm_compute. reflexivity.
Defined.

(** ** The routes without collaborators *)

(** C9. [/health] answers 200 with the body [{"status": "ok"}] in every
    world and for every configuration, and leaves the world as it was:
    nothing is read, nothing can fail. *)
Theorem health_check_ok app w :
  handler app GET_health w =
    (Returned (JSONResponse (VDict [("status", VStr "ok")]) 200), w) /\
  respond app GET_health w =
    ({| status := 200; body := VDict [("status", VStr "ok")] |}, w).
Proof. split; reflexivity. Qed.

(** C6. [/api/debug-env] asks for no credential and checks nothing: in
    every world it answers 200 with the ten configuration variables,
    each with the value the environment holds at that moment ([None]
    when unset), the AWS key pair and the database user and password
    among them. *)
Theorem debug_env_discloses app w :
  respond app GET_api_debug_env w =
    ({| status := 200;
        body := VDict ((fun n => (n, of_opt_str (environ w !! n)))
                         <$> debug_env_names) |}, w) /\
  Forall (fun n =>
            dict_get n ((fun n => (n, of_opt_str (environ w !! n)))
                          <$> debug_env_names)
            = Some (of_opt_str (environ w !! n)))
         ["AWS_ACCESS_KEY_ID"; "AWS_SECRET_ACCESS_KEY"; "DB_USER"; "DB_PASSWORD";
          "AWS_REGION"; "S3_BUCKET_NAME"; "DB_NAME"; "DB_HOST"; "DB_PORT";
          "FRONTEND_DOMAIN"].
Proof.
  split; [reflexivity|].
  repeat constructor.
Qed.

Example debug_env_sample :
  fst (respond Sample.app GET_api_debug_env Sample.world) =
  {| status := 200;
     body := VDict [("AWS_ACCESS_KEY_ID", VStr "AKIAEXAMPLE");
                    ("AWS_SECRET_ACCESS_KEY", VStr "s3cr3t");
                    ("AWS_REGION", VStr "eu-west-1");
                    ("S3_BUCKET_NAME", VStr "portfolio");
                    ("DB_USER", VStr "app");
                    ("DB_PASSWORD", VStr "hunter2");
                    ("DB_NAME", VStr "appdb");
                    ("DB_HOST", VStr "db.internal");
                    ("DB_PORT", VStr "5432");
                    ("FRONTEND_DOMAIN", VStr "https://example.org")] |}.
Proof. vm_compute. reflexivity. Qed.

(** ** Configuration and the environment *)

(** What [startup] binds is what the environment holds at import. *)
Lemma startup_run w :
  startup w =
  (Returned {| s3_client :=
                 {| aws_access_key_id := environ w !! "AWS_ACCESS_KEY_ID";
                    aws_secret_access_key := environ w !! "AWS_SECRET_ACCESS_KEY";
                    region_name := environ w !! "AWS_REGION" |};
               S3_BUCKET_NAME := environ w !! "S3_BUCKET_NAME" |}, w).
Proof. reflexivity. Qed.

(** C8, as the claim states it, fails: [root] reads [FRONTEND_DOMAIN]
    from the environment while serving, so a change made after start-up
    shows in its response. *)
Lemma config_read_once_counterexample :
  ~ (forall app r w e,
       fst (respond app r (set_environ e w)) = fst (respond app r w)).
Proof.
  intros H.
  specialize (H Sample.app GET_root Sample.world
                (<["FRONTEND_DOMAIN" := "https://changed.example"]> Sample.env)).
  vm_compute in H. discriminate H.
Qed.

Example debug_env_rereads :
  fst (respond Sample.app GET_api_debug_env
         (set_environ (<["DB_PASSWORD" := "rotated"]> Sample.env) Sample.world)) <>
  fst (respond Sample.app GET_api_debug_env Sample.world).
Proof. vm_compute. discriminate. Qed.

Example get_data_rereads :
  fst (respond Sample.app GET_api_data
         (set_environ (delete "DB_PORT" Sample.env) Sample.world)) <>
  fst (respond Sample.app GET_api_data Sample.world).
Proof. vm_compute. discriminate. Qed.

(** C8, amended. What is read once, at start-up, is the configuration of
    the object store (credentials, region, bucket name): the routes that
    do not call [os.getenv] while serving (health, hello, upload,
    list-images, generate-presigned-url) answer the same and act the
    same on the world whatever the environment has become since. *)
Theorem startup_config_is_fixed app r w e :
  reads_environ r = false ->
  respond app r (set_environ e w) =
    (fst (respond app r w), set_environ e (snd (respond app r w))).
Proof.
  intros Hr. destruct w as [env ent flt bks ps sg dbo dbn now clk out cls rd].
  destruct r; try discriminate Hr; run; cbv [fst snd]; case_all; reflexivity.
Qed.

Lemma startup_config_is_fixed_witness :
  respond Sample.app (POST_api_upload Sample.photo)
    (set_environ (<["S3_BUCKET_NAME" := "elsewhere"]> Sample.env) Sample.world) =
  (fst (respond Sample.app (POST_api_upload Sample.photo) Sample.world),
   set_environ (<["S3_BUCKET_NAME" := "elsewhere"]> Sample.env)
     (snd (respond Sample.app (POST_api_upload Sample.photo) Sample.world))).
Proof.
  apply (startup_config_is_fixed Sample.app (POST_api_upload Sample.photo)).
  reflexivity.
Defined.

(** * Further properties of the handlers *)

(** ** The extension of an uploaded file *)

Lemma split_singleton sep s h :
  PyStr.split sep s = [h] -> PyStr.contains_char sep s = false /\ h = s.
Proof.
  revert h. induction s as [|c s IH]; intros h H; cbn in H |- *.
  - injection H as <-. now split.
  - destruct (Ascii.eqb c sep).
    + injection H as _ H. now destruct (split_not_nil sep s).
    + destruct (PyStr.split sep s) as [|h0 t] eqn:E;
        [now destruct (split_not_nil sep s)|].
      injection H as <- ->.
      destruct (IH h0 eq_refl) as [-> ->]. now split.
Qed.

Lemma split_last sep s :
  exists ext,
    PyStr.last_item (PyStr.split sep s) = Some ext /\
    PyStr.contains_char sep ext = false /\
    (if PyStr.contains_char sep s
     then exists stem, s = stem +:+ String sep ext
     else s = ext).
Proof.
  unfold PyStr.last_item.
  induction s as [|c s (ext & Hlast & Hnosep & Hshape)].
  - exists "". repeat split.
  - cbn [PyStr.split PyStr.contains_char].
    destruct (Ascii.eqb c sep) eqn:Hc.
    + apply Ascii.eqb_eq in Hc as ->.
      exists ext. split; [|split; [exact Hnosep|]].
      * destruct (PyStr.split sep s) as [|h t] eqn:E;
          [now destruct (split_not_nil sep s)|].
        rewrite last_cons_cons. exact Hlast.
      * cbn [orb]. destruct (PyStr.contains_char sep s).
        -- destruct Hshape as [stem ->]. now exists (String sep stem).
        -- subst s. now exists "".
    + cbn [orb].
      destruct (PyStr.split sep s) as [|h t] eqn:E;
        [now destruct (split_not_nil sep s)|].
      destruct t as [|h' t].
      * cbn in Hlast. injection Hlast as ->.
        apply split_singleton in E as [Hs ->]. rewrite Hs.
        exists (String c s). repeat split.
        cbn [PyStr.contains_char]. now rewrite Hc, Hs.
      * rewrite last_cons_cons in Hlast |- *.
        exists ext. split; [exact Hlast|split; [exact Hnosep|]].
        destruct (PyStr.contains_char sep s).
        -- destruct Hshape as [stem ->]. now exists (String c stem).
        -- subst s. rewrite (split_no_sep _ _ Hnosep) in E. discriminate.
Qed.

(** X1. The extension [upload_file] derives from a file name is what
    follows its last dot: it never contains a dot, and the name is either
    the extension itself (no dot in the name) or [stem + "." + ext]. *)
Theorem extension_after_last_dot f name w :
  filename f = Some name ->
  exists ext,
    extension f w = (Returned ext, w) /\
    PyStr.contains_char "." ext = false /\
    (if PyStr.contains_char "." name
     then exists stem, name = stem +:+ "." +:+ ext
     else name = ext).
Proof.
  intros Hname.
  destruct (split_last "." name) as (ext & Hlast & Hnodot & Hshape).
  exists ext. split; [|split; [exact Hnodot | exact Hshape]].
  unfold extension. now rewrite Hname, Hlast.
Qed.

Lemma extension_after_last_dot_witness :
  exists ext,
    extension Sample.tarball Sample.world = (Returned ext, Sample.world) /\
    PyStr.contains_char "." ext = false /\
    (if PyStr.contains_char "." "backup.2024.tar.gz"
     then exists stem, "backup.2024.tar.gz" = stem +:+ "." +:+ ext
     else "backup.2024.tar.gz" = ext).
Proof.
  apply (extension_after_last_dot Sample.tarball "backup.2024.tar.gz" Sample.world).
  reflexivity.
Defined.

Example extension_tarball :
  fst (extension Sample.tarball Sample.world) = Returned "gz".
Proof. reflexivity. Qed.

Example extension_trailing_dot :
  PyStr.last_item (PyStr.split "." "notes.") = Some "".
Proof. reflexivity. Qed.

(** ** Uploads that fail *)

(** X2. An upload whose part carries no file name fails before anything
    is drawn or sent: the answer is a 500 whose detail is the text of the
    [AttributeError], and the world is untouched (no random bytes used,
    no call to the store). *)
Theorem upload_file_without_filename app f w :
  filename f = None ->
  respond app (POST_api_upload f) w =
    ({| status := 500;
        body := VDict [("detail",
          VStr "Upload failed: 'NoneType' object has no attribute 'split'")] |},
     w).
Proof.
  intros Hname. unfold respond, handler, upload_file, try_except, bind, extension.
  rewrite Hname. reflexivity.
Qed.

Lemma upload_file_without_filename_witness :
  respond Sample.app (POST_api_upload Sample.nameless) Sample.world =
    ({| status := 500;
        body := VDict [("detail",
          VStr "Upload failed: 'NoneType' object has no attribute 'split'")] |},
     Sample.world).
Proof.
  apply (upload_file_without_filename Sample.app Sample.nameless Sample.world).
  reflexivity.
Defined.

(** A part that declares no content type is refused by the SDK: the
    answer is a 500 of the second [except] clause, nothing is sent to the
    store and nothing is stored. *)
Lemma upload_file_without_content_type app f w name :
  filename f = Some name ->
  content_type f = None ->
  exists text,
    fst (respond app (POST_api_upload f) w) =
      {| status := 500;
         body := VDict [("detail", VStr ("Upload failed: " +:+ text))] |} /\
    buckets (snd (respond app (POST_api_upload f) w)) = buckets w /\
    faults (snd (respond app (POST_api_upload f) w)) = faults w.
Proof.
  intros Hname Hct.
  destruct (extension_run f name w Hname) as (ext & Hext & _).
  destruct w as [env ent flt bks ps sg dbo dbn now clk out cls rd].
  run. rewrite Hname, Hext. run. rewrite Hct.
  destruct (S3_BUCKET_NAME app); eexists; repeat split.
Qed.

Example upload_headerless_part :
  status (fst (respond Sample.app (POST_api_upload Sample.headerless) Sample.world))
    = 500 /\
  calls (snd (respond Sample.app (POST_api_upload Sample.headerless) Sample.world))
    = [CallUpload (Some "portfolio")
         "images/01234567-89ab-4def-8123-456789abcdef.png" None].
Proof. vm_compute. split; reflexivity. Qed.

Lemma upload_file_fault_run app f w name ext e :
  filename f = Some name ->
  PyStr.last_item (PyStr.split "." name) = Some ext ->
  is_Some (S3_BUCKET_NAME app) ->
  is_Some (content_type f) ->
  hd None (faults w) = Some e ->
  let key := object_key (Uuid.of_random (hd 0 (entropy w))) ext in
  upload_file app f w =
  (Raised (HTTPException 500
             (match e with
              | ClientError msg => "S3 upload failed: " +:+ msg
              | _ => "Upload failed: " +:+ exn_str e
              end)),
   set_faults (tl (faults w))
     (set_calls (calls w ++ [CallUpload (S3_BUCKET_NAME app) key (content_type f)])
        (set_entropy (tl (entropy w)) w))).
Proof.
  intros Hname Hext [b Hb] [ct Hct] Hfault key.
  destruct w as [env ent flt bks ps sg dbo dbn now clk out cls rd].
  cbn [faults] in Hfault. subst key.
  run. rewrite Hname, Hext. run. rewrite Hb, Hct. run. rewrite Hfault.
  destruct e; reflexivity.
Qed.

(** X3. When the call of an upload reaches the store (a bucket is
    configured, the part declares a content type) and the store raises,
    the handler answers 500
    and tells the two [except] clauses apart in the detail: a
    [ClientError] is reported as ["S3 upload failed: ..."], anything else
    as ["Upload failed: ..."], each followed by the text of the
    exception.  The random identifier has been drawn all the same, and
    the bucket is as it was. *)
Theorem upload_file_store_error app f w name e :
  filename f = Some name ->
  is_Some (S3_BUCKET_NAME app) ->
  is_Some (content_type f) ->
  hd None (faults w) = Some e ->
  fst (respond app (POST_api_upload f) w) =
    {| status := 500;
       body := VDict [("detail",
         VStr (match e with
               | ClientError msg => "S3 upload failed: " +:+ msg
               | _ => "Upload failed: " +:+ exn_str e
               end))] |} /\
  entropy (snd (respond app (POST_api_upload f) w)) = tl (entropy w) /\
  buckets (snd (respond app (POST_api_upload f) w)) = buckets w.
Proof.
  intros Hname Hb Hct Hfault.
  destruct (extension_run f name w Hname) as (ext & Hext & _).
  unfold respond, handler.
  rewrite (upload_file_fault_run app f w name ext e Hname Hext Hb Hct Hfault).
  repeat split.
Qed.

Lemma upload_file_store_error_witness :
  fst (respond Sample.app (POST_api_upload Sample.photo) Sample.s3_denied) =
    {| status := 500;
       body := VDict [("detail", VStr "S3 upload failed: AccessDenied")] |} /\
  entropy (snd (respond Sample.app (POST_api_upload Sample.photo) Sample.s3_denied))
    = tl (entropy Sample.s3_denied) /\
  buckets (snd (respond Sample.app (POST_api_upload Sample.photo) Sample.s3_denied))
    = buckets Sample.s3_denied.
Proof.
  apply (upload_file_store_error Sample.app Sample.photo Sample.s3_denied
           "photo.png" (ClientError "AccessDenied")).
  - reflexivity.
  - eexists. reflexivity.
  - eexists. reflexivity.
  - reflexivity.
Defined.

(** ** The database route, step by step *)

Lemma connect_db_bad_port w e :
  db_port w = Raised e ->
  connect_db w =
  (Returned None,
   set_stdout (stdout w ++ ["Error connecting to DB: " +:+ exn_str e]) w).
Proof.
  intros Hport. destruct w as [env ent flt bks ps sg dbo dbn now clk out cls rd].
  port_cases Hport.
  - now rewrite Hport.
  - now injection Hport as <-.
Qed.

Lemma connect_db_refused w port e :
  db_port w = Returned port ->
  fate 0 w = Some e ->
  connect_db w =
  (Returned None,
   set_stdout (stdout w ++ ["Error connecting to DB: " +:+ exn_str e])
     (set_faults (tl (faults w))
        (set_calls (calls w ++ [CallConnect (connect_args_of w port)]) w))).
Proof.
  intros Hport Hfate. destruct w as [env ent flt bks ps sg dbo dbn now clk out cls rd].
  cbv [fate Nat.iter nat_rect faults] in Hfate. unfold connect_args_of.
  port_cases Hport. rewrite Hport. run. rewrite Hfate. reflexivity.
Qed.

Lemma connect_db_connected w port :
  db_port w = Returned port ->
  fate 0 w = None ->
  connect_db w =
  (Returned (Some (db_next w)),
   set_db (db_open w ++ [db_next w]) (S (db_next w))
     (set_faults (tl (faults w))
        (set_calls (calls w ++ [CallConnect (connect_args_of w port)]) w))).
Proof.
  intros Hport Hfate. destruct w as [env ent flt bks ps sg dbo dbn now clk out cls rd].
  cbv [fate Nat.iter nat_rect faults] in Hfate. unfold connect_args_of.
  port_cases Hport. rewrite Hport. run. rewrite Hfate. reflexivity.
Qed.

Lemma fetchrow_answered conn q w :
  conn ∈ db_open w ->
  fate 0 w = None ->
  Pg.fetchrow conn q w =
  (Returned [("current_time", VDatetime (db_now w))],
   set_faults (tl (faults w)) (set_calls (calls w ++ [CallFetchrow conn q]) w)).
Proof.
  intros Hopen Hfate. destruct w as [env ent flt bks ps sg dbo dbn now clk out cls rd].
  cbn [db_open] in Hopen. cbv [fate Nat.iter nat_rect faults] in Hfate.
  run. rewrite Hfate. now rewrite (bool_decide_eq_true_2 _ Hopen).
Qed.

Lemma close_run conn w :
  Pg.close conn w =
  (match fate 0 w with Some e => Raised e | None => Returned tt end,
   match fate 0 w with
   | Some _ => set_faults (tl (faults w)) (set_calls (calls w ++ [CallClose conn]) w)
   | None =>
       set_db (filter (fun c => c <> conn) (db_open w)) (db_next w)
         (set_faults (tl (faults w)) (set_calls (calls w ++ [CallClose conn]) w))
   end).
Proof.
  destruct w as [env ent flt bks ps sg dbo dbn now clk out cls rd].
  cbv [fate Nat.iter nat_rect faults]. run.
  destruct (hd None flt); reflexivity.
Qed.

Lemma filter_out_last (l : list nat) c :
  c ∉ l -> filter (fun x => x <> c) (l ++ [c])%list = l.
Proof.
  intros Hfresh.
  rewrite filter_app, filter_cons_False, filter_nil, app_nil_r by tauto.
  apply filter_keeps_all, Forall_forall. intros x Hx ->. contradiction.
Qed.

(** X4. When [int(os.getenv("DB_PORT"))] raises, as it does with
    [DB_PORT] unset, the handler of [/api/data] never reaches the
    database: the exception is caught inside [connect_db], which prints
    it and returns [None]; the answer is 200 with ["Database connection
    failed"], and the world differs from the one before by that printed
    line only (no call was made, no connection opened). *)
Theorem get_data_bad_port app w e :
  db_port w = Raised e ->
  respond app GET_api_data w =
    ({| status := 200;
        body := VDict [("error", VStr "Database connection failed")] |},
     set_stdout (stdout w ++ ["Error connecting to DB: " +:+ exn_str e]) w).
Proof.
  intros Hport. unfold respond, handler.
  rewrite get_data_connect. unfold try_except.
  rewrite (connect_db_bad_port w e Hport). reflexivity.
Qed.

Lemma get_data_bad_port_witness :
  respond Sample.app GET_api_data Sample.no_port =
    ({| status := 200;
        body := VDict [("error", VStr "Database connection failed")] |},
     set_stdout
       ["Error connecting to DB: int() argument must be a string, a bytes-like object or a real number, not 'NoneType'"]
       Sample.no_port).
Proof.
  apply (get_data_bad_port Sample.app Sample.no_port
           (OtherException "TypeError"
              "int() argument must be a string, a bytes-like object or a real number, not 'NoneType'")).
  vm_compute. reflexivity.
Defined.

(** X5. [connect_db] never raises.  It returns a connection, which is
    then the newest open connection of the server and nothing has been
    printed; or it returns [None], no connection has been opened and
    exactly one line, starting with ["Error connecting to DB: "], has
    been printed. *)
Theorem connect_db_never_raises w :
  exists o w',
    connect_db w = (Returned o, w') /\
    match o with
    | Some conn =>
        conn = db_next w /\
        db_open w' = (db_open w ++ [conn])%list /\
        stdout w' = stdout w
    | None =>
        db_open w' = db_open w /\
        exists msg,
          stdout w' = (stdout w ++ ["Error connecting to DB: " +:+ msg])%list
    end.
Proof.
  destruct (db_port w) as [port|e] eqn:Hport.
  - destruct (fate 0 w) as [e|] eqn:Hfate.
    + rewrite (connect_db_refused w port e Hport Hfate).
      eexists _, _. split; [reflexivity|]. split; [reflexivity|].
      now exists (exn_str e).
    + rewrite (connect_db_connected w port Hport Hfate).
      eexists _, _. split; [reflexivity|]. now repeat split.
  - rewrite (connect_db_bad_port w e Hport).
    eexists _, _. split; [reflexivity|]. split; [reflexivity|].
    now exists (exn_str e).
Qed.

(** X6. [connect_db] makes a call exactly when
    [int(os.getenv("DB_PORT"))] returns, and then one call only:
    [asyncpg.connect] with host-name checking off and certificate
    verification [CERT_NONE], with the user, password, database and host
    the environment holds when the request is served and the port
    [int] returned. *)
Theorem connect_db_unverified_tls w :
  match db_port w with
  | Raised _ => calls (snd (connect_db w)) = calls w
  | Returned port =>
      calls (snd (connect_db w)) =
        (calls w ++
         [CallConnect
            {| ca_user := environ w !! "DB_USER";
               ca_password := environ w !! "DB_PASSWORD";
               ca_database := environ w !! "DB_NAME";
               ca_host := environ w !! "DB_HOST";
               ca_port := port;
               ca_ssl := {| check_hostname := false; verify := CERT_NONE |} |}])%list
  end.
Proof.
  destruct (db_port w) as [port|e] eqn:Hport.
  - destruct (fate 0 w) as [e|] eqn:Hfate.
    + now rewrite (connect_db_refused w port e Hport Hfate).
    + now rewrite (connect_db_connected w port Hport Hfate).
  - now rewrite (connect_db_bad_port w e Hport).
Qed.

Lemma get_data_answered_run w port :
  db_port w = Returned port ->
  fate 0 w = None -> fate 1 w = None ->
  get_data w =
  let conn := db_next w in
  let w2 :=
    set_faults (tl (tl (faults w)))
      (set_calls (calls w ++ [CallConnect (connect_args_of w port)]
                          ++ [CallFetchrow conn "SELECT NOW() as current_time"])
         (set_db (db_open w ++ [conn]) (S conn) w)) in
  try_except
    (Pg.close conn ;;
     date <- Pg.item [("current_time", VDatetime (db_now w))] "current_time" ;;
     ret_ (Dict [("Date", date); ("message", VStr "Hello from the database!")]))
    (fun e => ret_ (Dict [("error", VStr ("Server error: " +:+ exn_str e))])) w2.
Proof.
  intros Hport H0 H1. rewrite get_data_connect. unfold try_except at 1.
  rewrite (connect_db_connected w port Hport H0). unfold bind at 1.
  rewrite fetchrow_answered;
    [|cbn; apply elem_of_app; right; constructor | exact H1].
  destruct w as [env ent flt bks ps sg dbo dbn now clk out cls rd].
  cbv zeta. unfold try_except, bind. cbn -[Pg.close Pg.item].
  rewrite <- !app_assoc. reflexivity.
Qed.

Lemma get_data_answered w port :
  db_port w = Returned port ->
  fate 0 w = None -> fate 1 w = None -> fate 2 w = None ->
  db_next w ∉ db_open w ->
  get_data w =
  (Returned (Dict [("Date", VDatetime (db_now w));
                   ("message", VStr "Hello from the database!")]),
   set_db (db_open w) (S (db_next w))
     (set_faults (tl (tl (tl (faults w))))
        (set_calls
           (calls w ++ [CallConnect (connect_args_of w port);
                        CallFetchrow (db_next w) "SELECT NOW() as current_time";
                        CallClose (db_next w)]) w))).
Proof.
  intros Hport H0 H1 H2 Hfresh.
  rewrite (get_data_answered_run w port Hport H0 H1). cbv zeta.
  unfold try_except, bind at 1. rewrite close_run.
  unfold fate in H2 |- *. cbn [Nat.iter nat_rect] in H2 |- *.
  cbn [faults set_faults set_calls set_db]. rewrite H2.
  destruct w as [env ent flt bks ps sg dbo dbn now clk out cls rd].
  cbn in Hfresh |- *. rewrite <- !app_assoc.
  rewrite (filter_out_last dbo dbn Hfresh). reflexivity.
Qed.

Lemma get_data_close_raises w port e :
  db_port w = Returned port ->
  fate 0 w = None -> fate 1 w = None -> fate 2 w = Some e ->
  get_data w =
  (Returned (Dict [("error", VStr ("Server error: " +:+ exn_str e))]),
   set_db (db_open w ++ [db_next w]) (S (db_next w))
     (set_faults (tl (tl (tl (faults w))))
        (set_calls
           (calls w ++ [CallConnect (connect_args_of w port);
                        CallFetchrow (db_next w) "SELECT NOW() as current_time";
                        CallClose (db_next w)]) w))).
Proof.
  intros Hport H0 H1 H2.
  rewrite (get_data_answered_run w port Hport H0 H1). cbv zeta.
  unfold try_except, bind at 1. rewrite close_run.
  unfold fate in H2 |- *. cbn [Nat.iter nat_rect] in H2 |- *.
  cbn [faults set_faults set_calls set_db]. rewrite H2.
  destruct w as [env ent flt bks ps sg dbo dbn now clk out cls rd].
  cbn. rewrite <- !app_assoc. reflexivity.
Qed.

(** X7. When the port is an integer and the three calls go through,
    [/api/data] makes exactly those three calls, connect, the fixed
    query and close on the connection just opened, answers 200 with
    the server's [NOW()] under ["Date"], and leaves the server with the
    connections it had before. *)
Theorem get_data_answers_and_closes app w port :
  db_port w = Returned port ->
  fate 0 w = None -> fate 1 w = None -> fate 2 w = None ->
  db_next w ∉ db_open w ->
  fst (respond app GET_api_data w) =
    {| status := 200;
       body := VDict [("Date", VDatetime (db_now w));
                      ("message", VStr "Hello from the database!")] |} /\
  calls (snd (respond app GET_api_data w)) =
    (calls w ++ [CallConnect (connect_args_of w port);
                 CallFetchrow (db_next w) "SELECT NOW() as current_time";
                 CallClose (db_next w)])%list /\
  db_open (snd (respond app GET_api_data w)) = db_open w.
Proof.
  intros Hport H0 H1 H2 Hfresh. unfold respond, handler.
  rewrite (get_data_answered w port Hport H0 H1 H2 Hfresh). repeat split.
Qed.

Lemma get_data_answers_and_closes_witness :
  fst (respond Sample.app GET_api_data Sample.world) =
    {| status := 200;
       body := VDict [("Date", VDatetime 1700000000000000);
                      ("message", VStr "Hello from the database!")] |} /\
  calls (snd (respond Sample.app GET_api_data Sample.world)) =
    [CallConnect (connect_args_of Sample.world 5432);
     CallFetchrow 0 "SELECT NOW() as current_time";
     CallClose 0] /\
  db_open (snd (respond Sample.app GET_api_data Sample.world)) = [].
Proof.
  apply (get_data_answers_and_closes Sample.app Sample.world 5432).
  - vm_compute. reflexivity.
  - reflexivity.
  - reflexivity.
  - reflexivity.
  - cbn. apply not_elem_of_nil.
Defined.

(** X8. The row is read before the connection is closed and used after:
    when connect and the query go through and [close] raises, the
    timestamp that was fetched is dropped and the answer is 200 with
    ["Server error: "] followed by the text of the exception. *)
Theorem get_data_close_error app w port e :
  db_port w = Returned port ->
  fate 0 w = None -> fate 1 w = None -> fate 2 w = Some e ->
  fst (respond app GET_api_data w) =
    {| status := 200;
       body := VDict [("error", VStr ("Server error: " +:+ exn_str e))] |} /\
  calls (snd (respond app GET_api_data w)) =
    (calls w ++ [CallConnect (connect_args_of w port);
                 CallFetchrow (db_next w) "SELECT NOW() as current_time";
                 CallClose (db_next w)])%list.
Proof.
  intros Hport H0 H1 H2. unfold respond, handler.
  rewrite (get_data_close_raises w port e Hport H0 H1 H2). repeat split.
Qed.

Lemma get_data_close_error_witness :
  fst (respond Sample.app GET_api_data Sample.close_error) =
    {| status := 200;
       body := VDict [("error", VStr "Server error: connection lost")] |} /\
  calls (snd (respond Sample.app GET_api_data Sample.close_error)) =
    [CallConnect (connect_args_of Sample.close_error 5432);
     CallFetchrow 0 "SELECT NOW() as current_time";
     CallClose 0].
Proof.
  apply (get_data_close_error Sample.app Sample.close_error 5432
           (OtherException "InterfaceError" "connection lost")).
  - vm_compute. reflexivity.
  - reflexivity.
  - reflexivity.
  - reflexivity.
Defined.

(** ** What the routes answer, and what they touch *)

Lemma upload_file_outcome app f w :
  exists w',
    (exists d, upload_file app f w = (Returned (Dict d), w')) \/
    (exists detail, upload_file app f w = (Raised (HTTPException 500 detail), w')).
Proof.
  destruct w as [env ent flt bks ps sg dbo dbn now clk out cls rd].
  run. case_all; eauto.
Qed.

Lemma list_images_outcome app w :
  exists w',
    (exists d, list_images app w = (Returned (Dict d), w')) \/
    (exists detail, list_images app w = (Raised (HTTPException 500 detail), w')).
Proof.
  destruct w as [env ent flt bks ps sg dbo dbn now clk out cls rd].
  run. case_all; eauto.
Qed.

Lemma get_presigned_url_outcome app filename w :
  exists w',
    (exists d, get_presigned_url app filename w = (Returned (Dict d), w')) \/
    (exists detail,
       get_presigned_url app filename w = (Raised (HTTPException 500 detail), w')).
Proof.
  destruct w as [env ent flt bks ps sg dbo dbn now clk out cls rd].
  run. case_all; eauto.
Qed.

(** X9. No route of the file answers with anything but 200 or 500: the
    routes that talk to the object store turn every exception into a
    500, and all the others (health, root, hello, data, debug-env)
    answer 200 in every world, errors of the database included. *)
Theorem status_is_200_or_500 app r w :
  if uses_store r
  then status (fst (respond app r w)) = 200 \/ status (fst (respond app r w)) = 500
  else status (fst (respond app r w)) = 200.
Proof.
  destruct r; cbn [uses_store]; unfold respond, handler; try reflexivity.
  - destruct (get_data_never_raises w) as (d & w' & ->). reflexivity.
  - destruct (upload_file_outcome app f w) as (w' & [[d ->] | [detail ->]]);
      [left | right]; reflexivity.
  - destruct (list_images_outcome app w) as (w' & [[d ->] | [detail ->]]);
      [left | right]; reflexivity.
  - destruct (get_presigned_url_outcome app filename0 w)
      as (w' & [[d ->] | [detail ->]]); [left | right]; reflexivity.
Qed.

(** X10. What serving a request can change.  No route writes the
    environment; only an upload changes the content of a bucket or
    draws random bytes; only [/api/data] changes the set of open
    database connections. *)
Theorem respond_footprint app r w :
  environ (snd (respond app r w)) = environ w /\
  match r with
  | POST_api_upload _ => True
  | _ => buckets (snd (respond app r w)) = buckets w /\
         entropy (snd (respond app r w)) = entropy w
  end /\
  match r with
  | GET_api_data => True
  | _ => db_open (snd (respond app r w)) = db_open w
  end.
Proof.
  destruct w as [env ent flt bks ps sg dbo dbn now clk out cls rd].
  destruct r; run; cbv [fst snd]; case_all; repeat split.
Qed.

(** ** Listing *)

(** X11. Listing an empty bucket is not an error: the response of the
    store carries no [Contents], the handler falls back on the empty
    list and answers 200 with ["images": []]. *)
Theorem list_images_empty_bucket app w :
  bucket_objects app w = Some ∅ ->
  fate 0 w = None ->
  fst (respond app GET_api_list_images w) =
    {| status := 200; body := VDict [("images", VList [])] |}.
Proof.
  intros Hobjs Hfate. unfold bucket_objects in Hobjs.
  destruct (S3_BUCKET_NAME app) as [b|] eqn:Hb; [|discriminate].
  cbn in Hobjs. unfold respond, handler.
  rewrite (list_images_run app w b ∅ Hb Hobjs Hfate).
  assert (S3.sorted_keys ∅ = []) as ->.
  { apply length_zero_iff_nil. rewrite length_sorted_keys. apply map_size_empty. }
  now rewrite take_nil.
Qed.

Lemma list_images_empty_bucket_witness :
  fst (respond Sample.app GET_api_list_images Sample.empty_bucket) =
    {| status := 200; body := VDict [("images", VList [])] |}.
Proof.
  apply (list_images_empty_bucket Sample.app Sample.empty_bucket).
  - unfold bucket_objects. cbn. apply lookup_singleton_eq.
  - reflexivity.
Defined.

(** X12. Upload, then list: when the part declares a content type, both
    calls go through and the bucket still fits in one page, the key the
    upload has just returned is among the keys the next listing
    returns. *)
Theorem uploaded_key_is_listed app f w name objs :
  filename f = Some name ->
  is_Some (content_type f) ->
  bucket_objects app w = Some objs ->
  fate 0 w = None -> fate 1 w = None ->
  (base.size objs < page_size w)%nat ->
  exists key keys,
    returned_key (fst (upload_file app f w)) = Some key /\
    fst (respond app GET_api_list_images (snd (respond app (POST_api_upload f) w))) =
      {| status := 200; body := VDict [("images", VList (VStr <$> keys))] |} /\
    key ∈ keys.
Proof.
  intros Hname Hct Hobjs H0 H1 Hsize. unfold bucket_objects in Hobjs.
  destruct (S3_BUCKET_NAME app) as [b|] eqn:Hb; [|discriminate].
  cbn in Hobjs.
  destruct (extension_run f name w Hname) as (ext & Hext & _).
  pose proof (upload_file_run app f w name ext b objs Hname Hext Hb Hobjs H0 Hct)
    as Hup. cbv zeta in Hup.
  set (key := object_key (Uuid.of_random (hd 0 (entropy w))) ext) in *.
  set (o := {| obj_body := file f; obj_content_type := content_type f |}) in *.
  exists key, (take (page_size w) (S3.sorted_keys (<[key := o]> objs))).
  assert (Hresp : snd (respond app (POST_api_upload f) w) =
                  snd (upload_file app f w)).
  { unfold respond, handler. now destruct (upload_file app f w). }
  rewrite Hresp, Hup. cbn [fst snd].
  split; [reflexivity|].
  unfold respond, handler.
  erewrite list_images_run;
    [|exact Hb | cbn; apply lookup_insert_eq | exact H1].
  split; [reflexivity|].
  cbn [page_size set_buckets set_faults set_calls set_entropy].
  rewrite take_ge.
  - apply elem_of_sorted_keys. rewrite lookup_insert_eq. eauto.
  - rewrite length_sorted_keys, map_size_insert.
    destruct (objs !! key); cbn; lia.
Qed.

Lemma uploaded_key_is_listed_witness :
  exists key keys,
    returned_key (fst (upload_file Sample.app Sample.photo Sample.roomy)) = Some key /\
    fst (respond Sample.app GET_api_list_images
           (snd (respond Sample.app (POST_api_upload Sample.photo) Sample.roomy))) =
      {| status := 200; body := VDict [("images", VList (VStr <$> keys))] |} /\
    key ∈ keys.
Proof.
  apply (uploaded_key_is_listed Sample.app Sample.photo Sample.roomy
           "photo.png" Sample.objects).
  - reflexivity.
  - eexists. reflexivity.
  - unfold bucket_objects. cbn. apply lookup_singleton_eq.
  - reflexivity.
  - reflexivity.
  - vm_compute. lia.
Defined.

(** ** Keys *)

Lemma object_key_eq_inv u1 u2 e1 e2 :
  0 <= u1 < 2 ^ 128 -> 0 <= u2 < 2 ^ 128 ->
  object_key u1 e1 = object_key u2 e2 -> u1 = u2 /\ e1 = e2.
Proof.
  intros H1 H2 Heq. unfold object_key in Heq.
  apply string_app_inv_head in Heq.
  apply string_app_inj_same_length in Heq as [Hu He];
    [|now rewrite !uuid_str_length].
  split; [now apply uuid_str_inj|].
  now apply (string_app_inv_head ".").
Qed.

(** X13. A key can be read back: two keys built by [upload_file] are
    equal only if the identifiers drawn are equal and the extensions
    are equal. *)
Theorem object_key_injective r1 r2 e1 e2 :
  object_key (Uuid.of_random r1) e1 = object_key (Uuid.of_random r2) e2 ->
  Uuid.of_random r1 = Uuid.of_random r2 /\ e1 = e2.
Proof. apply object_key_eq_inv; apply of_random_range. Qed.

Lemma object_key_injective_witness :
  Uuid.of_random 5 = Uuid.of_random (5 + 2 ^ 128) /\ "png" = "png".
Proof.
  apply (object_key_injective 5 (5 + 2 ^ 128) "png" "png").
  vm_compute. reflexivity.
Defined.

(** X14. Uploads accumulate.  After two uploads in a row of parts that
    declare a content type, that both go through and drew different
    identifiers, the bucket holds the first
    file under the first key, the second file under the second key, and
    under every other key what it held before. *)
Theorem two_uploads_both_stored app f1 f2 w n1 n2 objs :
  filename f1 = Some n1 ->
  filename f2 = Some n2 ->
  is_Some (content_type f1) ->
  is_Some (content_type f2) ->
  bucket_objects app w = Some objs ->
  fate 0 w = None -> fate 1 w = None ->
  Uuid.of_random (hd 0 (entropy w)) <> Uuid.of_random (hd 0 (tl (entropy w))) ->
  let w1 := snd (respond app (POST_api_upload f1) w) in
  let w2 := snd (respond app (POST_api_upload f2) w1) in
  exists k1 k2 objs2,
    returned_key (fst (upload_file app f1 w)) = Some k1 /\
    returned_key (fst (upload_file app f2 w1)) = Some k2 /\
    k1 <> k2 /\
    bucket_objects app w2 = Some objs2 /\
    objs2 !! k1 =
      Some {| obj_body := file f1; obj_content_type := content_type f1 |} /\
    objs2 !! k2 =
      Some {| obj_body := file f2; obj_content_type := content_type f2 |} /\
    forall k, k <> k1 -> k <> k2 -> objs2 !! k = objs !! k.
Proof.
  intros Hn1 Hn2 Hc1 Hc2 Hobjs H0 H1 Hne w1 w2. unfold bucket_objects in Hobjs.
  destruct (S3_BUCKET_NAME app) as [b|] eqn:Hb; [|discriminate].
  cbn in Hobjs.
  assert (Hsnd : forall f w0, snd (respond app (POST_api_upload f) w0) =
                              snd (upload_file app f w0)).
  { intros f w0. unfold respond, handler. now destruct (upload_file app f w0). }
  destruct (extension_run f1 n1 w Hn1) as (x1 & Hx1 & _).
  destruct (extension_run f2 n2 w Hn2) as (x2 & Hx2 & _).
  pose proof (upload_file_run app f1 w n1 x1 b objs Hn1 Hx1 Hb Hobjs H0 Hc1)
    as Hup1.
  cbv zeta in Hup1.
  set (k1 := object_key (Uuid.of_random (hd 0 (entropy w))) x1) in *.
  set (o1 := {| obj_body := file f1; obj_content_type := content_type f1 |}) in *.
  assert (Hw1 : w1 = snd (upload_file app f1 w)) by apply Hsnd.
  rewrite Hup1 in Hw1. cbn [snd] in Hw1.
  assert (Hobjs1 : buckets w1 !! b = Some (<[k1 := o1]> objs)).
  { rewrite Hw1. cbn. apply lookup_insert_eq. }
  assert (H0' : hd None (faults w1) = None) by (rewrite Hw1; exact H1).
  pose proof (upload_file_run app f2 w1 n2 x2 b _ Hn2 Hx2 Hb Hobjs1 H0' Hc2)
    as Hup2.
  cbv zeta in Hup2.
  assert (Hent : entropy w1 = tl (entropy w)) by (rewrite Hw1; reflexivity).
  rewrite Hent in Hup2.
  set (k2 := object_key (Uuid.of_random (hd 0 (tl (entropy w)))) x2) in *.
  set (o2 := {| obj_body := file f2; obj_content_type := content_type f2 |}) in *.
  assert (Hk : k1 <> k2).
  { intros E. apply object_key_eq_inv in E as [E _];
      [contradiction | apply of_random_range..]. }
  exists k1, k2, (<[k2 := o2]> (<[k1 := o1]> objs)).
  rewrite Hup1, Hup2. cbn [fst returned_key dict_get String.eqb Ascii.eqb].
  split; [reflexivity|]. split; [reflexivity|]. split; [exact Hk|].
  assert (Hw2 : w2 = snd (upload_file app f2 w1)) by apply Hsnd.
  rewrite Hup2 in Hw2. cbn [snd] in Hw2.
  split.
  { unfold bucket_objects. rewrite Hb, Hw2. cbn. apply lookup_insert_eq. }
  split; [|split].
  - rewrite lookup_insert_ne by (intros E; apply Hk; now symmetry).
    apply lookup_insert_eq.
  - apply lookup_insert_eq.
  - intros k Hk1 Hk2.
    rewrite !lookup_insert_ne by (intros E; subst; contradiction).
    reflexivity.
Qed.

Lemma two_uploads_both_stored_witness :
  exists k1 k2 objs2,
    returned_key (fst (upload_file Sample.app Sample.photo Sample.world)) = Some k1 /\
    returned_key
      (fst (upload_file Sample.app Sample.photo
              (snd (respond Sample.app (POST_api_upload Sample.photo) Sample.world))))
      = Some k2 /\
    k1 <> k2 /\
    bucket_objects Sample.app
      (snd (respond Sample.app (POST_api_upload Sample.photo)
              (snd (respond Sample.app (POST_api_upload Sample.photo) Sample.world))))
      = Some objs2 /\
    objs2 !! k1 = Some Sample.png /\
    objs2 !! k2 = Some Sample.png /\
    forall k, k <> k1 -> k <> k2 -> objs2 !! k = Sample.objects !! k.
Proof.
  apply (two_uploads_both_stored Sample.app Sample.photo Sample.photo Sample.world
           "photo.png" "photo.png" Sample.objects).
  - reflexivity.
  - reflexivity.
  - eexists. reflexivity.
  - eexists. reflexivity.
  - unfold bucket_objects. cbn. apply lookup_singleton_eq.
  - reflexivity.
  - reflexivity.
  - vm_compute. discriminate.
Defined.

(** ** The shape of the identifier *)

Lemma hex_digit_is_hex d : 0 <= d < 16 -> is_hex (Uuid.hex_digit d) = true.
Proof.
  intros Hd. unfold Uuid.hex_digit.
  assert (Hn : (Z.to_nat d < 16)%nat) by lia.
  revert Hn. generalize (Z.to_nat d). intros n Hn.
  do 16 (destruct n as [|n]; [reflexivity|]). lia.
Qed.

Lemma hex_digits_all_hex k n : Forall (fun c => is_hex c = true) (Uuid.hex_digits k n).
Proof.
  revert n. induction k as [|k IH]; intros n; cbn [Uuid.hex_digits].
  - constructor.
  - apply Forall_app. split; [apply IH|].
    constructor; [|constructor].
    apply hex_digit_is_hex, Z.mod_pos_bound. lia.
Qed.

Lemma hex_digits_lookup k n i :
  (i < k)%nat ->
  Uuid.hex_digits k n !! i =
    Some (Uuid.hex_digit ((n / 16 ^ Z.of_nat (k - 1 - i)) mod 16)).
Proof.
  revert n i. induction k as [|k IH]; intros n i Hi; [lia|].
  cbn [Uuid.hex_digits].
  destruct (decide (i = k)) as [->|Hne].
  - rewrite lookup_app_r by (rewrite hex_digits_length; lia).
    rewrite hex_digits_length.
    replace (k - k)%nat with 0%nat by lia.
    replace (S k - 1 - k)%nat with 0%nat by lia.
    cbn [lookup list_lookup Z.of_nat]. now rewrite Z.pow_0_r, Z.div_1_r.
  - rewrite lookup_app_l by (rewrite hex_digits_length; lia).
    rewrite IH by lia. do 2 f_equal. f_equal.
    rewrite Z.div_div by lia. f_equal.
    replace (S k - 1 - i)%nat with (S (k - 1 - i)) by lia.
    rewrite Nat2Z.inj_succ, Z.pow_succ_r by lia. reflexivity.
Qed.

Lemma nibble_testbit u j k n :
  0 <= j -> 0 <= k -> 0 <= n ->
  Z.testbit ((u / 2 ^ j) mod 2 ^ k) n =
    if Z.ltb n k then Z.testbit u (n + j) else false.
Proof.
  intros Hj Hk Hn. destruct (Z.ltb_spec n k).
  - rewrite Z.mod_pow2_bits_low by lia. now rewrite Z.div_pow2_bits by lia.
  - now rewrite Z.mod_pow2_bits_high by lia.
Qed.

Ltac const_bits :=
  repeat match goal with
         | |- context [Z.testbit (Z.shiftl ?a ?b) ?k] =>
             let v := eval vm_compute in (Z.testbit (Z.shiftl a b) k) in
             change (Z.testbit (Z.shiftl a b) k) with v
         end.

Lemma of_random_version r : (Uuid.of_random r / 16 ^ 19) mod 16 = 4.
Proof.
  change (16 ^ 19) with (2 ^ 76). change 16 with (2 ^ 4).
  apply Z.bits_inj'. intros n Hn. rewrite nibble_testbit by lia.
  destruct (Z.ltb_spec n 4) as [Hlt|Hge].
  - unfold Uuid.of_random. cbv zeta.
    repeat first [rewrite Z.lor_spec | rewrite Z.ldiff_spec].
    assert (n = 0 \/ n = 1 \/ n = 2 \/ n = 3) as [-> | [-> | [-> | ->]]] by lia;
      cbn [Z.add Pos.add Pos.succ]; const_bits;
      rewrite ?andb_false_r, ?andb_true_r, ?orb_false_r, ?orb_true_r;
      reflexivity.
  - symmetry. apply Z.bits_above_log2; [lia|]. cbn. lia.
Qed.

Lemma of_random_variant r : (Uuid.of_random r / 16 ^ 15 / 4) mod 4 = 2.
Proof.
  rewrite Z.div_div by lia.
  change (16 ^ 15 * 4) with (2 ^ 62). change 4 with (2 ^ 2).
  apply Z.bits_inj'. intros n Hn. rewrite nibble_testbit by lia.
  destruct (Z.ltb_spec n 2) as [Hlt|Hge].
  - unfold Uuid.of_random. cbv zeta.
    repeat first [rewrite Z.lor_spec | rewrite Z.ldiff_spec].
    assert (n = 0 \/ n = 1) as [-> | ->] by lia;
      cbn [Z.add Pos.add Pos.succ]; const_bits;
      rewrite ?andb_false_r, ?andb_true_r, ?orb_false_r, ?orb_true_r;
      reflexivity.
  - symmetry. apply Z.bits_above_log2; [lia|]. cbn. lia.
Qed.

Lemma variant_digit a :
  (a / 4) mod 4 = 2 ->
  Uuid.hex_digit (a mod 16) ∈ ["8"; "9"; "a"; "b"]%char.
Proof.
  intros H.
  assert (a mod 16 = 8 \/ a mod 16 = 9 \/ a mod 16 = 10 \/ a mod 16 = 11)
    as [-> | [-> | [-> | ->]]]
    by (Z.to_euclidean_division_equations; lia);
    cbn; repeat first [apply list_elem_of_here | apply list_elem_of_further].
Qed.

(** X15. The identifier in every generated key is a version-4 UUID in
    canonical text form: five groups of 8, 4, 4, 4 and 12 lowercase
    hexadecimal digits separated by dashes, the third group starting
    with [4] and the fourth with [8], [9], [a] or [b]. *)
Theorem uuid_is_canonical_v4 r :
  exists (a b c : list ascii) (v : ascii) (d e : list ascii),
    list_ascii_of_string (Uuid.str (Uuid.of_random r)) =
      (a ++ "-"%char :: b ++ "-"%char :: "4"%char :: c ++ "-"%char ::
       v :: d ++ "-"%char :: e)%list /\
    (length a = 8 /\ length b = 4 /\ length c = 3 /\ length d = 3 /\
     length e = 12)%nat /\
    Forall (fun x => is_hex x = true) (a ++ b ++ c ++ d ++ e)%list /\
    v ∈ ["8"; "9"; "a"; "b"]%char.
Proof.
  unfold Uuid.str. rewrite list_ascii_of_string_of_list_ascii.
  pose proof (hex_digits_length 32 (Uuid.of_random r)) as Hlen.
  pose proof (hex_digits_all_hex 32 (Uuid.of_random r)) as Hhex.
  pose proof (hex_digits_lookup 32 (Uuid.of_random r) 12 ltac:(lia)) as H12.
  pose proof (hex_digits_lookup 32 (Uuid.of_random r) 16 ltac:(lia)) as H16.
  change (Z.of_nat (32 - 1 - 12)) with 19 in H12.
  change (Z.of_nat (32 - 1 - 16)) with 15 in H16.
  rewrite of_random_version in H12.
  pose proof (variant_digit _ (of_random_variant r)) as Hv.
  revert Hlen Hhex H12 H16 Hv.
  generalize (Uuid.hex_digit ((Uuid.of_random r / 16 ^ 15) mod 16)).
  generalize (Uuid.hex_digits 32 (Uuid.of_random r)).
  intros h v Hlen Hhex H12 H16 Hv.
  exists (take 8 h), (take 4 (drop 8 h)), (take 3 (drop 13 h)), v,
         (take 3 (drop 17 h)), (drop 20 h).
  do 32 (destruct h as [|? h]; [simpl in Hlen; lia|]).
  destruct h; [|simpl in Hlen; lia].
  cbn in H12, H16. injection H12 as ->. injection H16 as ->.
  split; [reflexivity|].
  split; [repeat split|].
  split; [|exact Hv].
  cbn [take drop app].
  repeat match type of Hhex with
         | Forall _ (_ :: _) => apply Forall_cons in Hhex as [? Hhex]
         end.
  repeat constructor; assumption.
Qed.

Example uuid_canonical_sample :
  Uuid.str (next_uuid Sample.world) = "01234567-89ab-4def-8123-456789abcdef".
Proof. vm_compute. reflexivity. Qed.

(** X16. The key depends on the random bytes and the extension only,
    and nothing is checked before the put: when two uploads in a row,
    of parts that declare a content type and to a bucket that takes
    them, draw the same identifier and their names end in the same extension,
    both are answered 200 with the same key, and the bucket is then
    what the second upload alone would have left: the first file is
    gone. *)
Theorem upload_collision_overwrites app f1 f2 w n1 n2 ext objs :
  filename f1 = Some n1 ->
  filename f2 = Some n2 ->
  PyStr.last_item (PyStr.split "." n1) = Some ext ->
  PyStr.last_item (PyStr.split "." n2) = Some ext ->
  is_Some (content_type f1) ->
  is_Some (content_type f2) ->
  bucket_objects app w = Some objs ->
  fate 0 w = None -> fate 1 w = None ->
  Uuid.of_random (hd 0 (entropy w)) = Uuid.of_random (hd 0 (tl (entropy w))) ->
  let key := object_key (next_uuid w) ext in
  let w1 := snd (respond app (POST_api_upload f1) w) in
  let w2 := snd (respond app (POST_api_upload f2) w1) in
  returned_key (fst (upload_file app f1 w)) = Some key /\
  returned_key (fst (upload_file app f2 w1)) = Some key /\
  status (fst (respond app (POST_api_upload f2) w1)) = 200 /\
  bucket_objects app w2 =
    Some (<[key := {| obj_body := file f2; obj_content_type := content_type f2 |}]>
            objs).
Proof.
  intros Hn1 Hn2 Hx1 Hx2 Hc1 Hc2 Hobjs H0 H1 Hsame key w1 w2.
  unfold bucket_objects in Hobjs.
  destruct (S3_BUCKET_NAME app) as [b|] eqn:Hb; [|discriminate].
  cbn in Hobjs.
  assert (Hsnd : forall f w0, snd (respond app (POST_api_upload f) w0) =
                              snd (upload_file app f w0)).
  { intros f w0. unfold respond, handler. now destruct (upload_file app f w0). }
  pose proof (upload_file_run app f1 w n1 ext b objs Hn1 Hx1 Hb Hobjs H0 Hc1)
    as Hup1.
  cbv zeta in Hup1. fold (next_uuid w) in Hup1. fold key in Hup1.
  set (o1 := {| obj_body := file f1; obj_content_type := content_type f1 |}) in *.
  assert (Hw1 : w1 = snd (upload_file app f1 w)) by apply Hsnd.
  rewrite Hup1 in Hw1. cbn [snd] in Hw1.
  assert (Hobjs1 : buckets w1 !! b = Some (<[key := o1]> objs)).
  { rewrite Hw1. cbn. apply lookup_insert_eq. }
  assert (H0' : hd None (faults w1) = None) by (rewrite Hw1; exact H1).
  pose proof (upload_file_run app f2 w1 n2 ext b _ Hn2 Hx2 Hb Hobjs1 H0' Hc2)
    as Hup2.
  cbv zeta in Hup2.
  assert (Hent : entropy w1 = tl (entropy w)) by (rewrite Hw1; reflexivity).
  rewrite Hent, <- Hsame in Hup2. fold (next_uuid w) in Hup2. fold key in Hup2.
  set (o2 := {| obj_body := file f2; obj_content_type := content_type f2 |}) in *.
  assert (Hw2 : w2 = snd (upload_file app f2 w1)) by apply Hsnd.
  rewrite Hup2 in Hw2. cbn [snd] in Hw2.
  split; [now rewrite Hup1|].
  split; [now rewrite Hup2|].
  split; [unfold respond, handler; now rewrite Hup2|].
  unfold bucket_objects. rewrite Hb, Hw2. cbn.
  now rewrite lookup_insert_eq, insert_insert_eq.
Qed.

Lemma upload_collision_overwrites_witness :
  let key := object_key (next_uuid Sample.stuck_random) "png" in
  let w1 := snd (respond Sample.app (POST_api_upload Sample.photo)
                   Sample.stuck_random) in
  let w2 := snd (respond Sample.app (POST_api_upload Sample.drawing) w1) in
  returned_key (fst (upload_file Sample.app Sample.photo Sample.stuck_random))
    = Some key /\
  returned_key (fst (upload_file Sample.app Sample.drawing w1)) = Some key /\
  status (fst (respond Sample.app (POST_api_upload Sample.drawing) w1)) = 200 /\
  bucket_objects Sample.app w2 =
    Some (<[key := {| obj_body := [Byte.x42]; obj_content_type := Some "image/png" |}]>
            Sample.objects).
Proof.
  apply (upload_collision_overwrites Sample.app Sample.photo Sample.drawing
           Sample.stuck_random "photo.png" "drawing.png" "png" Sample.objects).
  - reflexivity.
  - reflexivity.
  - reflexivity.
  - reflexivity.
  - eexists. reflexivity.
  - eexists. reflexivity.
  - unfold bucket_objects. cbn. apply lookup_singleton_eq.
  - reflexivity.
  - reflexivity.
  - reflexivity.
Defined.
